(** * Cross-store consistency layer of the retail backend

    A shallow embedding of [services/redisService.js], of the cart routes
    and of the order routes, over an in-memory model of the three stores:
    the Redis key-value store (string payloads with a time to live), the
    MongoDB product and order collections, and the Neo4j interaction graph.

    JavaScript numbers that count things (quantities, stock, counters) are
    integers [Z]; prices and money amounts are IEEE 754 binary64 values
    ([float]), with the arithmetic of the JavaScript [Number] type. *)

From Stdlib Require Import ZArith Ascii String Floats.
From Stdlib Require Import DecimalString DecimalZ DecimalPos Lia.
From stdpp Require Import base option list gmap strings.

Set Warnings "-inexact-float,-register-all".
Local Open Scope Z_scope.

(** ** Strings *)

Module Str.

Definition quote : ascii := "034"%char.
Definition backslash : ascii := "092"%char.

Definition char (c : ascii) : string := String c EmptyString.

Fixpoint strip_prefix (p s : string) : option string :=
  match p with
  | EmptyString => Some s
  | String a p' =>
    match s with
    | String b s' => if Ascii.eqb a b then strip_prefix p' s' else None
    | EmptyString => None
    end
  end.

End Str.

(** ** JSON values, [JSON.stringify] and [JSON.parse]

    The values are those of the JSON data model: [null], booleans, numbers,
    strings, arrays and objects.  Numbers are the integers; a string is a
    sequence of 8-bit code units; an object lists its own properties in
    property order.  [stringify] follows ECMAScript's
    [SerializeJSONProperty] without indentation, and [parse] reads the text
    [stringify] writes (no white space, no fraction or exponent part). *)

Module JSON.

Import Str.

Inductive json : Type :=
| JNull
| JBool (b : bool)
| JNum (n : Z)
| JStr (s : string)
| JArr (xs : list json)
| JObj (kvs : list (string * json)).

(** *** Numbers *)

Definition print_Z (z : Z) : string := NilZero.string_of_int (Z.to_int z).

(** A number token is accepted when it is the canonical decimal form of an
    integer: an optional minus sign and digits without a leading zero. *)
Definition parse_Z (s : string) : option Z :=
  match NilZero.int_of_string s with
  | Some d =>
    let z := Z.of_int d in
    if String.eqb (print_Z z) s then Some z else None
  | None => None
  end.

(** A JSON number token, for the integers: as above, and [-0]. *)
Definition parse_number (s : string) : option Z :=
  if String.eqb s "-0" then Some 0 else parse_Z s.

Definition is_numchar (c : ascii) : bool :=
  Ascii.eqb c "-" || ((48 <=? N_of_ascii c)%N && (N_of_ascii c <=? 57)%N).

Definition num_head (s : string) : bool :=
  match s with
  | String c _ => is_numchar c
  | EmptyString => false
  end.

Fixpoint span_num (s : string) : string * string :=
  match s with
  | String c r =>
    if is_numchar c then (let '(a, b) := span_num r in (String c a, b))
    else (EmptyString, s)
  | EmptyString => (EmptyString, EmptyString)
  end.

(** *** Strings: [QuoteJSONString] and its inverse *)

Definition hex_digit (n : N) : ascii :=
  match n with
  | 0 => "0" | 1 => "1" | 2 => "2" | 3 => "3" | 4 => "4" | 5 => "5"
  | 6 => "6" | 7 => "7" | 8 => "8" | 9 => "9" | 10 => "a" | 11 => "b"
  | 12 => "c" | 13 => "d" | 14 => "e" | _ => "f"
  end%N%char.

Definition hex_value (c : ascii) : option N :=
  let n := N_of_ascii c in
  if (48 <=? n)%N && (n <=? 57)%N then Some (n - 48)%N
  else if (97 <=? n)%N && (n <=? 102)%N then Some (n - 87)%N
  else if (65 <=? n)%N && (n <=? 70)%N then Some (n - 55)%N
  else None.

Definition quote_char (c : ascii) : string :=
  match N_of_ascii c with
  | 8 => String backslash (char "b")
  | 9 => String backslash (char "t")
  | 10 => String backslash (char "n")
  | 12 => String backslash (char "f")
  | 13 => String backslash (char "r")
  | 34 => String backslash (char quote)
  | 92 => String backslash (char backslash)
  | n =>
    if n <? 32
    then String backslash (String "u" (String "0" (String "0"
           (String (hex_digit (n / 16)) (char (hex_digit (n mod 16)))))))
    else char c
  end%N.

Fixpoint quote_body (s : string) : string :=
  match s with
  | EmptyString => EmptyString
  | String c r => quote_char c +:+ quote_body r
  end.

Definition quote_string (s : string) : string :=
  String quote (quote_body s +:+ char quote).

Definition unescape (e : ascii) : option ascii :=
  match N_of_ascii e with
  | 34 => Some quote
  | 92 => Some backslash
  | 47 => Some "/"%char
  | 98 => Some "008"%char
  | 102 => Some "012"%char
  | 110 => Some "010"%char
  | 114 => Some "013"%char
  | 116 => Some "009"%char
  | _ => None
  end%N.

Definition hex4 (a b c d : ascii) : option ascii :=
  x ← hex_value a; y ← hex_value b; z ← hex_value c; w ← hex_value d;
  let n := (4096 * x + 256 * y + 16 * z + w)%N in
  if (n <? 256)%N then Some (ascii_of_N n) else None.

(** Reads the characters of a string literal after its opening quote, up to
    and including the closing quote. *)
Fixpoint parse_chars (s : string) : option (string * string) :=
  match s with
  | EmptyString => None
  | String c r =>
    if Ascii.eqb c quote then Some (EmptyString, r)
    else if Ascii.eqb c backslash then
      match r with
      | EmptyString => None
      | String e r1 =>
        if Ascii.eqb e "u" then
          match r1 with
          | String h1 (String h2 (String h3 (String h4 r2))) =>
            match hex4 h1 h2 h3 h4, parse_chars r2 with
            | Some x, Some (str, rest) => Some (String x str, rest)
            | _, _ => None
            end
          | _ => None
          end
        else
          match unescape e, parse_chars r1 with
          | Some x, Some (str, rest) => Some (String x str, rest)
          | _, _ => None
          end
      end
    else if (N_of_ascii c <? 32)%N then None
    else
      match parse_chars r with
      | Some (str, rest) => Some (String c str, rest)
      | None => None
      end
  end.

(** *** Objects *)

(** Assignment to a property: an existing property keeps its place. *)
Fixpoint obj_set (k : string) (v : json) (kvs : list (string * json))
  : list (string * json) :=
  match kvs with
  | [] => [(k, v)]
  | (k', v') :: r =>
    if String.eqb k' k then (k', v) :: r else (k', v') :: obj_set k v r
  end.

Fixpoint obj_get (k : string) (kvs : list (string * json)) : option json :=
  match kvs with
  | [] => None
  | (k', v') :: r => if String.eqb k' k then Some v' else obj_get k r
  end.

(** *** Serialization *)

Fixpoint stringify (v : json) : string :=
  match v with
  | JNull => "null"
  | JBool true => "true"
  | JBool false => "false"
  | JNum n => print_Z n
  | JStr s => quote_string s
  | JArr xs =>
    let fix elements (xs : list json) : string :=
      match xs with
      | [] => EmptyString
      | [x] => stringify x
      | x :: r => stringify x +:+ String "," (elements r)
      end in
    String "[" (elements xs +:+ "]")
  | JObj kvs =>
    let fix members (kvs : list (string * json)) : string :=
      match kvs with
      | [] => EmptyString
      | [(k, x)] => quote_string k +:+ String ":" (stringify x)
      | (k, x) :: r =>
        quote_string k +:+ String ":" (stringify x) +:+ String "," (members r)
      end in
    String "{" (members kvs +:+ "}")
  end.

Definition elements : list json → string :=
  fix elements (xs : list json) : string :=
    match xs with
    | [] => EmptyString
    | [x] => stringify x
    | x :: r => stringify x +:+ String "," (elements r)
    end.

Definition members : list (string * json) → string :=
  fix members (kvs : list (string * json)) : string :=
    match kvs with
    | [] => EmptyString
    | [(k, x)] => quote_string k +:+ String ":" (stringify x)
    | (k, x) :: r =>
      quote_string k +:+ String ":" (stringify x) +:+ String "," (members r)
    end.

(** A JavaScript object has no two properties of the same name. *)
Fixpoint wf (v : json) : Prop :=
  match v with
  | JArr xs => fold_right (λ x acc, wf x ∧ acc) True xs
  | JObj kvs =>
    NoDup kvs.*1 ∧ fold_right (λ kv acc, wf kv.2 ∧ acc) True kvs
  | _ => True
  end.

(** *** Parsing *)

Fixpoint parse_value (fuel : nat) (s : string) : option (json * string) :=
  match fuel with
  | O => None
  | S f =>
    if num_head s then
      let '(tok, r) := span_num s in
      match parse_number tok with
      | Some n => Some (JNum n, r)
      | None => None
      end
    else
    match s with
    | EmptyString => None
    | String c r =>
      if Ascii.eqb c quote then
        match parse_chars r with
        | Some (str, r') => Some (JStr str, r')
        | None => None
        end
      else if Ascii.eqb c "[" then
        match strip_prefix "]" r with
        | Some r' => Some (JArr [], r')
        | None =>
          match parse_elements f r with
          | Some (xs, r') => Some (JArr xs, r')
          | None => None
          end
        end
      else if Ascii.eqb c "{" then
        match strip_prefix "}" r with
        | Some r' => Some (JObj [], r')
        | None =>
          match parse_members f [] r with
          | Some (kvs, r') => Some (JObj kvs, r')
          | None => None
          end
        end
      else
        match strip_prefix "null" s with
        | Some r' => Some (JNull, r')
        | None =>
          match strip_prefix "true" s with
          | Some r' => Some (JBool true, r')
          | None =>
            match strip_prefix "false" s with
            | Some r' => Some (JBool false, r')
            | None => None
            end
          end
        end
    end
  end
with parse_elements (fuel : nat) (s : string) : option (list json * string) :=
  match fuel with
  | O => None
  | S f =>
    match parse_value f s with
    | Some (v, String "," r) =>
      match parse_elements f r with
      | Some (vs, r') => Some (v :: vs, r')
      | None => None
      end
    | Some (v, String "]" r) => Some ([v], r)
    | _ => None
    end
  end
with parse_members (fuel : nat) (acc : list (string * json)) (s : string)
  : option (list (string * json) * string) :=
  match fuel with
  | O => None
  | S f =>
    match s with
    | String c r =>
      if Ascii.eqb c quote then
        match parse_chars r with
        | Some (k, String ":" r1) =>
          match parse_value f r1 with
          | Some (v, String "," r2) => parse_members f (obj_set k v acc) r2
          | Some (v, String "}" r2) => Some (obj_set k v acc, r2)
          | _ => None
          end
        | _ => None
        end
      else None
    | EmptyString => None
    end
  end.

(** [JSON.parse]: the whole text is one value. *)
Definition parse (s : string) : option json :=
  match parse_value (S (String.length s)) s with
  | Some (v, EmptyString) => Some v
  | _ => None
  end.

(** What the round trip says of one value, for an enclosing text. *)
Definition round_trips (v : json) : Prop :=
  wf v → ∀ fuel rest,
    (String.length (stringify v) < fuel)%nat → num_head rest = false →
    parse_value fuel (stringify v +:+ rest) = Some (v, rest).

End JSON.

(** ** The Redis server

    The key space maps a key to a payload and to the seconds the entry has
    left; [None] is an entry that never expires.  Time passes through
    [elapse], which drops the entries whose time is up, so a key that has
    expired cannot be told from one that was never written.  The counter of
    [INCR] is an unbounded integer here. *)

Module Redis.

Record entry := Entry { payload : string; ttl : option Z }.

(** [SETEX key seconds value]; the server refuses a time that is not positive. *)
Definition setEx (key : string) (seconds : Z) (value : string)
  (db : gmap string entry) : option (gmap string entry) :=
  if seconds <=? 0 then None
  else Some (<[key := Entry value (Some seconds)]> db).

(** [GET key] *)
Definition get (key : string) (db : gmap string entry) : option string :=
  payload <$> db !! key.

(** [DEL key] *)
Definition del (key : string) (db : gmap string entry) : gmap string entry :=
  delete key db.

(** [EXISTS key] *)
Definition exists_ (key : string) (db : gmap string entry) : Z :=
  match db !! key with Some _ => 1 | None => 0 end.

(** [INCR key]: a missing key counts from 0; the time to live is kept; a
    payload that is not an integer is an error. *)
Definition incr (key : string) (db : gmap string entry)
  : option (Z * gmap string entry) :=
  match db !! key with
  | None => Some (1, <[key := Entry (JSON.print_Z 1) None]> db)
  | Some e =>
    match JSON.parse_Z (payload e) with
    | Some n => Some (n + 1, <[key := Entry (JSON.print_Z (n + 1)) (ttl e)]> db)
    | None => None
    end
  end.

(** [EXPIRE key seconds]: a time that is not positive deletes the key. *)
Definition expire (key : string) (seconds : Z) (db : gmap string entry)
  : gmap string entry :=
  match db !! key with
  | None => db
  | Some e =>
    if seconds <=? 0 then delete key db
    else <[key := Entry (payload e) (Some seconds)]> db
  end.

Definition age (d : Z) (e : entry) : option entry :=
  match ttl e with
  | None => Some e
  | Some t => if t <=? d then None else Some (Entry (payload e) (Some (t - d)))
  end.

(** [d] seconds pass. *)
Definition elapse (d : Z) (db : gmap string entry) : gmap string entry :=
  omap (age d) db.

End Redis.

(** ** [services/redisService.js] *)

Module RedisService.

Import JSON.

(** What [getRedisClient()] hands out: nothing before [connectRedis] has
    run, a client whose commands reject while the server cannot be reached,
    or a working client. *)
Inductive link := Absent | Offline | Online.

#[global] Instance link_eq_dec : EqDecision link.
Proof. solve_decision. Defined.

Record t := Make { client : link; db : gmap string Redis.entry }.

Definition with_db (r : t) (db' : gmap string Redis.entry) : t :=
  Make (client r) db'.

(** Time passes on the server. *)
Definition elapse (d : Z) (r : t) : t := with_db r (Redis.elapse d (db r)).

(** [set]; a caller that leaves [expireInSeconds] out passes 3600. *)
Definition set (key : string) (value : json) (expireInSeconds : Z) (r : t)
  : bool * t :=
  match client r with
  | Absent => (false, r)
  | Offline => (false, r)
  | Online =>
    let serializedValue := stringify value in
    match Redis.setEx key expireInSeconds serializedValue (db r) with
    | Some db' => (true, with_db r db')
    | None => (false, r)
    end
  end.

(** [null] is [JNull]: a missing key, an empty payload, a payload that does
    not parse and an unreachable server all read as [null]. *)
Definition get (key : string) (r : t) : json :=
  match client r with
  | Absent => JNull
  | Offline => JNull
  | Online =>
    match Redis.get key (db r) with
    | None => JNull
    | Some EmptyString => JNull
    | Some value =>
      match parse value with
      | Some v => v
      | None => JNull
      end
    end
  end.

Definition del (key : string) (r : t) : bool * t :=
  match client r with
  | Absent => (false, r)
  | Offline => (false, r)
  | Online => (true, with_db r (Redis.del key (db r)))
  end.

Definition exists_ (key : string) (r : t) : bool :=
  match client r with
  | Absent => false
  | Offline => false
  | Online => Redis.exists_ key (db r) =? 1
  end.

Definition cart_key (userId : string) : string := "cart:" +:+ userId.

Definition setCart (userId : string) (cartData : json) (r : t) : bool * t :=
  set (cart_key userId) cartData 86400 r.

Definition getCart (userId : string) (r : t) : json := get (cart_key userId) r.

Definition deleteCart (userId : string) (r : t) : bool * t :=
  del (cart_key userId) r.

Definition checkRateLimit (key : string) (limit windowInSeconds : Z) (r : t)
  : bool * t :=
  match client r with
  | Absent => (true, r)
  | Offline => (true, r)
  | Online =>
    match Redis.incr key (db r) with
    | None => (true, r)
    | Some (current, db1) =>
      let db2 :=
        if current =? 1 then Redis.expire key windowInSeconds db1 else db1 in
      (current <=? limit, with_db r db2)
    end
  end.

(** Calls to [checkRateLimit] for one key, each after a pause. *)
Fixpoint burst (key : string) (limit windowInSeconds : Z) (pauses : list Z)
  (r : t) : list bool * t :=
  match pauses with
  | [] => ([], r)
  | d :: rest =>
    let '(allowed, r1) := checkRateLimit key limit windowInSeconds (elapse d r) in
    let '(more, r2) := burst key limit windowInSeconds rest r1 in
    (allowed :: more, r2)
  end.

End RedisService.

(** ** More of [services/redisService.js]: the typed wrappers *)

Module Cache.

Import JSON RedisService.

Definition session_key (sessionId : string) : string := "session:" +:+ sessionId.
Definition product_key (productId : string) : string := "product:" +:+ productId.
Definition user_key (userId : string) : string := "user:" +:+ userId.



Definition deleteSession (sessionId : string) (r : t) : bool * t :=
  del (session_key sessionId) r.



Definition invalidateProductCache (productId : string) (r : t) : bool * t :=
  del (product_key productId) r.



Definition invalidateUserCache (userId : string) (r : t) : bool * t :=
  del (user_key userId) r.

(** [KEYS *], in the order the server lists them. *)
Definition keys (db : gmap string Redis.entry) : list string :=
  (map_to_list db).*1.

(** [DEL key [key ...]] *)
Definition del_keys (ks : list string) (db : gmap string Redis.entry)
  : gmap string Redis.entry :=
  foldr delete db ks.

Definition clearAllCache (r : t) : bool * t :=
  match client r with
  | Absent => (false, r)
  | Offline => (false, r)
  | Online =>
    let ks := keys (db r) in
    if (0 <? Z.of_nat (length ks))
    then (true, with_db r (del_keys ks (db r)))
    else (true, r)
  end.

End Cache.

(** ** The keys of the search cache: [Buffer.from(query).toString('base64')]

    A string is a sequence of 8-bit code units, as for JSON; [utf8] is the
    UTF-8 encoding that [Buffer.from] applies to them, and [encode] the
    base64 alphabet of RFC 4648 with padding. *)

Module Base64.




Definition pad : ascii := "="%char.


(** The service never reads a key back.  The inverse of [encode] is here
    to show that two byte strings with the same encoding are the same. *)

(** The sextet that a character of the alphabet stands for. *)
Definition unsextet (c : ascii) : option (list bool) :=
  let n := N_of_ascii c in
  let v :=
    if (65 <=? n)%N && (n <=? 90)%N then Some (n - 65)%N
    else if (97 <=? n)%N && (n <=? 122)%N then Some (n - 71)%N
    else if (48 <=? n)%N && (n <=? 57)%N then Some (n + 4)%N
    else if (n =? 43)%N then Some 62%N
    else if (n =? 47)%N then Some 63%N
    else None in
  (λ v, [N.testbit v 5; N.testbit v 4; N.testbit v 3; N.testbit v 2;
         N.testbit v 1; N.testbit v 0]) <$> v.

Fixpoint decode (fuel : nat) (s : string) : option string :=
  match fuel with
  | O => None
  | S fuel =>
    match s with
    | EmptyString => Some EmptyString
    | String x (String y (String z (String t rest))) =>
      match unsextet x, unsextet y with
      | Some [x5; x4; x3; x2; x1; x0], Some [y5; y4; y3; y2; y1; y0] =>
        let a := Ascii y4 y5 x0 x1 x2 x3 x4 x5 in
        if Ascii.eqb z pad then
          if Ascii.eqb t pad then
            match rest with
            | EmptyString => Some (String a EmptyString)
            | _ => None
            end
          else None
        else
          match unsextet z with
          | Some [z5; z4; z3; z2; z1; z0] =>
            let b := Ascii z2 z3 z4 z5 y0 y1 y2 y3 in
            if Ascii.eqb t pad then
              match rest with
              | EmptyString => Some (String a (String b EmptyString))
              | _ => None
              end
            else
              match unsextet t with
              | Some [t5; t4; t3; t2; t1; t0] =>
                let c := Ascii t0 t1 t2 t3 t4 t5 z0 z1 in
                match decode fuel rest with
                | Some more => Some (String a (String b (String c more)))
                | None => None
                end
              | _ => None
              end
          | _ => None
          end
      | _, _ => None
      end
    | _ => None
    end
  end.

End Base64.

Module SearchCache.

Import JSON RedisService.




End SearchCache.

(** ** Numbers, products, orders and the interaction graph *)

Module Num.

(** The [Number] that an integer denotes (round to nearest, ties to even). *)
Definition of_Z (z : Z) : float := SF2Prim (binary_normalize prec emax z 0 false).

End Num.

(** The product documents: the fields of [productSchema] the routes read.
    [images] lists the [url] of each image. *)
Module Product.

Record t := Make {
  name : string;
  price : float;
  images : list string;
  stock : Z;
  isActive : bool
}.

(** [product.images[0]?.url || ''] *)
Definition image (p : t) : string := default EmptyString (head (images p)).

Definition with_stock (p : t) (s : Z) : t :=
  Make (name p) (price p) (images p) s (isActive p).

(** The validator of the schema that a change of [stock] can break:
    [min: [0, 'Stock cannot be negative']]. *)
Definition valid (p : t) : bool := 0 <=? stock p.

(** [Product.findById] *)
Definition findById (id : string) (db : gmap string t) : option t := db !! id.

(** [product.save()]: [None] is the validation error it throws. *)
Definition save (id : string) (p : t) (db : gmap string t)
  : option (gmap string t) :=
  if valid p then Some (<[id := p]> db) else None.

End Product.

Module Order.

Record item := Item {
  product : string;
  quantity : Z;
  price : float;
  name : string;
  image : string
}.

Record t := Make {
  user : string;
  items : list item;
  shippingAddress : string;
  paymentMethod : string;
  subtotal : float;
  tax : float;
  shippingCost : float;
  total : float;
  orderStatus : string;
  deliveredAt : option Z;
  cancelledAt : option Z;
  cancellationReason : option string
}.

(** Modelled from the spec: the order schema, [models/Order.js], is not
    among the sources; a new order gets the status [pending] and no
    delivery or cancellation time.  An order's id is its position in the
    collection. *)
Definition create (user : string) (items : list item)
  (shippingAddress paymentMethod : string)
  (subtotal tax shippingCost total : float) (db : list t) : t * list t :=
  let order :=
    Make user items shippingAddress paymentMethod subtotal tax shippingCost
         total "pending" None None None in
  (order, db ++ [order]).

Definition findById (id : nat) (db : list t) : option t := db !! id.

Definition cancelled (o : t) (now : Z) (reason : option string) : t :=
  Make (user o) (items o) (shippingAddress o) (paymentMethod o) (subtotal o)
       (tax o) (shippingCost o) (total o) "cancelled" (deliveredAt o)
       (Some now)
       (match reason with
        | Some (String c s) => Some (String c s)
        | _ => cancellationReason o
        end).

End Order.

Module Neo4j.

Record edge := Edge {
  source : string;
  target : string;
  kind : string;
  timestamp : Z
}.

Record t := Make {
  online : bool;
  users : gset string;
  products : gset string;
  edges : list edge
}.

(** [createUserInteraction]: the [MATCH ... CREATE] adds an edge when both
    nodes are in the graph; [None] is the error it rethrows. *)
Definition createUserInteraction (userId productId interactionType : string)
  (timestamp : Z) (g : t) : option t :=
  if online g then
    if bool_decide (userId ∈ users g ∧ productId ∈ products g)
    then Some (Make (online g) (users g) (products g)
                 (edges g ++ [Edge userId productId interactionType timestamp]))
    else Some g
  else None.

End Neo4j.

(** ** The three stores together, and what a route answers *)

Record world := World {
  redis : RedisService.t;
  products : gmap string Product.t;
  orders : list Order.t;
  graph : Neo4j.t
}.

Definition with_redis (w : world) (r : RedisService.t) : world :=
  World r (products w) (orders w) (graph w).

Definition with_products (w : world) (db : gmap string Product.t) : world :=
  World (redis w) db (orders w) (graph w).

Definition with_orders (w : world) (db : list Order.t) : world :=
  World (redis w) (products w) db (graph w).

Definition with_graph (w : world) (g : Neo4j.t) : world :=
  World (redis w) (products w) (orders w) g.

(** The failures of the routes: [BadRequest] is a 400 for a request that is
    not well formed, [InsufficientStock] the 400 of a stock check,
    [InvalidState] the 400 of a cancellation that comes too late,
    [NotFound] a 404, [AccessDenied] a 403 and [ServerError] the 500 of the
    handler's [catch]. *)
Inductive failure :=
| BadRequest | NotFound | InsufficientStock | InvalidState | AccessDenied
| ServerError.

Inductive response (A : Type) :=
| Ok (data : A)
| Fail (e : failure).

Arguments Ok {A} data.
Arguments Fail {A} e.

(** [Array.prototype.findIndex]; [None] is its -1. *)
Fixpoint findIndex {A : Type} (f : A → bool) (l : list A) : option nat :=
  match l with
  | [] => None
  | x :: r => if f x then Some O else S <$> findIndex f r
  end.

(** ** The cart routes *)

Module Cart.

Import JSON.

Record line := Line { product : string; quantity : Z }.

(** The cart object [{ items: [{ product, quantity }, ...] }]. *)
Definition line_to_json (l : line) : json :=
  JObj [("product", JStr (product l)); ("quantity", JNum (quantity l))].

Definition to_json (items : list line) : json :=
  JObj [("items", JArr (line_to_json <$> items))].

Definition line_of_json (j : json) : option line :=
  match j with
  | JObj kvs =>
    match obj_get "product" kvs, obj_get "quantity" kvs with
    | Some (JStr p), Some (JNum q) => Some (Line p q)
    | _, _ => None
    end
  | _ => None
  end.

Definition of_json (j : json) : option (list line) :=
  match j with
  | JObj kvs =>
    match obj_get "items" kvs with
    | Some (JArr xs) => mapM line_of_json xs
    | _ => None
    end
  | _ => None
  end.

(** What [redisService.getCart] hands to a route: [null], a cart, or a
    value that is no cart.  Only [setCart] writes the cart keys, so the
    last case does not arise from the routes; a route that meets it is
    taken to throw. *)
Inductive stored :=
| Null
| Items (items : list line)
| Malformed.

Definition decode (j : json) : stored :=
  match j with
  | JNull => Null
  | _ =>
    match of_json j with
    | Some items => Items items
    | None => Malformed
    end
  end.

Definition read (userId : string) (r : RedisService.t) : stored :=
  decode (RedisService.getCart userId r).

(** [redisService.setCart], whose result the routes ignore. *)
Definition write (userId : string) (items : list line) (w : world) : world :=
  with_redis w (RedisService.setCart userId (to_json items) (redis w)).2.

(** [cart.items.reduce((sum, item) => sum + item.quantity, 0)] *)
Definition itemCount (items : list line) : Z :=
  fold_left (λ sum item, sum + quantity item) items 0.

Definition same_product (productId : string) (item : line) : bool :=
  String.eqb (product item) productId.

(** One line of the answer of [GET /api/cart]. *)
Record view_item := ViewItem {
  vi_product : string;
  vi_name : string;
  vi_price : float;
  vi_image : string;
  vi_quantity : Z;
  vi_stock : Z;
  vi_subtotal : float
}.

Record view := View {
  v_items : list view_item;
  v_total : float;
  v_itemCount : Z
}.

(** [Product.find({ _id: { $in: productIds }, isActive: true })] *)
Definition find_active (productIds : list string) (db : gmap string Product.t)
  : gmap string Product.t :=
  filter (λ kv, kv.1 ∈ productIds ∧ Product.isActive kv.2 = true) db.

Definition join (found : gmap string Product.t) (cartItem : line)
  : option view_item :=
  match found !! product cartItem with
  | None => None
  | Some p =>
    Some (ViewItem (product cartItem) (Product.name p) (Product.price p)
            (Product.image p) (quantity cartItem) (Product.stock p)
            (Product.price p * Num.of_Z (quantity cartItem))%float)
  end.

Definition materialize (items : list line) (db : gmap string Product.t) : view :=
  let found := find_active (product <$> items) db in
  let cartItems := omap (join found) items in
  View cartItems
       (fold_left (λ sum item, sum + vi_subtotal item)%float cartItems 0%float)
       (fold_left (λ sum item, sum + vi_quantity item) cartItems 0).

(** [GET /api/cart] *)
Definition getCart (userId : string) (w : world) : response view * world :=
  match read userId (redis w) with
  | Null => (Ok (View [] 0%float 0), w)
  | Items [] => (Ok (View [] 0%float 0), w)
  | Items items => (Ok (materialize items (products w)), w)
  | Malformed => (Fail ServerError, w)
  end.

(** [POST /api/cart/add]; a missing [quantity] is 1, a missing [productId]
    is the empty string. *)
Definition addItem (userId productId : string) (quantity : option Z) (w : world)
  : response Z * world :=
  let quantity := default 1 quantity in
  if String.eqb productId EmptyString then (Fail BadRequest, w) else
  match Product.findById productId (products w) with
  | None => (Fail NotFound, w)
  | Some product =>
    if negb (Product.isActive product) then (Fail NotFound, w)
    else if Product.stock product <? quantity then (Fail InsufficientStock, w)
    else
      match read userId (redis w) with
      | Malformed => (Fail ServerError, w)
      | cart =>
        let items := match cart with Items items => items | _ => [] end in
        match findIndex (same_product productId) items with
        | Some existingItemIndex =>
          match items !! existingItemIndex with
          | Some existing =>
            let newQuantity := Cart.quantity existing + quantity in
            if Product.stock product <? newQuantity
            then (Fail InsufficientStock, w)
            else
              let items' :=
                <[existingItemIndex := Line (Cart.product existing) newQuantity]>
                  items in
              (Ok (itemCount items'), write userId items' w)
          | None => (Fail ServerError, w)
          end
        | None =>
          let items' := items ++ [Line productId quantity] in
          (Ok (itemCount items'), write userId items' w)
        end
      end
  end.

(** [PUT /api/cart/update]; [quantity = None] is a body without it. *)
Definition updateItem (userId productId : string) (quantity : option Z)
  (w : world) : response Z * world :=
  match quantity with
  | None => (Fail BadRequest, w)
  | Some quantity =>
    if String.eqb productId EmptyString then (Fail BadRequest, w)
    else if quantity <? 0 then (Fail BadRequest, w)
    else
      match Product.findById productId (products w) with
      | None => (Fail NotFound, w)
      | Some product =>
        if negb (Product.isActive product) then (Fail NotFound, w) else
        match read userId (redis w) with
        | Malformed => (Fail ServerError, w)
        | Null => (Fail NotFound, w)
        | Items items =>
          match findIndex (same_product productId) items with
          | None => (Fail NotFound, w)
          | Some itemIndex =>
            if quantity =? 0 then
              let items' := delete itemIndex items in
              (Ok (itemCount items'), write userId items' w)
            else if Product.stock product <? quantity
            then (Fail InsufficientStock, w)
            else
              let items' :=
                alter (λ item, Line (Cart.product item) quantity) itemIndex items in
              (Ok (itemCount items'), write userId items' w)
          end
        end
      end
  end.

(** [DELETE /api/cart/remove/:productId] *)
Definition removeItem (userId productId : string) (w : world)
  : response Z * world :=
  match read userId (redis w) with
  | Malformed => (Fail ServerError, w)
  | Null => (Fail NotFound, w)
  | Items items =>
    match findIndex (same_product productId) items with
    | None => (Fail NotFound, w)
    | Some itemIndex =>
      let items' := delete itemIndex items in
      (Ok (itemCount items'), write userId items' w)
    end
  end.

(** [DELETE /api/cart/clear] *)
Definition clearCart (userId : string) (w : world) : response unit * world :=
  (Ok tt, with_redis w (RedisService.deleteCart userId (redis w)).2).

End Cart.

(** ** [GET /api/cart/count]

    The route reads the stored value as it is: [cart && cart.items] lets
    every value through that is falsy or has no [items], and [reduce] adds
    up whatever [quantity] the elements have. *)

Module CartCount.

Import JSON.

(** [ToBoolean] *)
Definition truthy (v : json) : bool :=
  match v with
  | JNull => false
  | JBool b => b
  | JNum n => negb (n =? 0)
  | JStr s => negb (String.eqb s EmptyString)
  | JArr _ => true
  | JObj _ => true
  end.

(** [cart.items] of a value that is not [null]: only an object has the
    property. *)
Definition items_of (cart : json) : option json :=
  match cart with
  | JObj kvs => obj_get "items" kvs
  | _ => None
  end.

(** What [sum + item.quantity] does to a sum that is an integer. *)
Inductive step :=
| Plus (n : Z)
| NotAnInteger
| Throws.

(** [item.quantity] of [null] throws; a number is added, [true] counts as
    1, [false] and [null] as 0; a missing quantity gives [NaN], and a
    string, an array or an object is concatenated. *)
Definition quantity_step (item : json) : step :=
  match item with
  | JNull => Throws
  | JObj kvs =>
    match obj_get "quantity" kvs with
    | Some (JNum q) => Plus q
    | Some (JBool true) => Plus 1
    | Some (JBool false) => Plus 0
    | Some JNull => Plus 0
    | _ => NotAnInteger
    end
  | _ => NotAnInteger
  end.

(** [items.reduce((sum, item) => sum + item.quantity, 0)]: [Some None] is
    a result that is no integer ([NaN] or a string), [None] a [TypeError]. *)
Fixpoint reduce (items : list json) (sum : option Z) : option (option Z) :=
  match items with
  | [] => Some sum
  | item :: rest =>
    match quantity_step item with
    | Throws => None
    | NotAnInteger => reduce rest None
    | Plus q => reduce rest ((λ n, n + q) <$> sum)
    end
  end.

(** The answer carries [itemCount]; [None] is one that is no integer. *)
Definition count (userId : string) (w : world) : response (option Z) * world :=
  let cart := RedisService.getCart userId (redis w) in
  if truthy cart then
    match items_of cart with
    | None => (Ok (Some 0), w)
    | Some items =>
      if truthy items then
        match items with
        | JArr xs =>
          match reduce xs (Some 0) with
          | Some itemCount => (Ok itemCount, w)
          | None => (Fail ServerError, w)
          end
        | _ => (Fail ServerError, w)
        end
      else (Ok (Some 0), w)
    end
  else (Ok (Some 0), w).

End CartCount.

(** ** The order routes *)

Module Orders.

(** A line of the request body: [{ product, quantity }]. *)
Record request_item := RequestItem { product : string; quantity : Z }.

(** The purchase is recorded in the graph; when that throws, the error is
    logged and the order goes on. *)
Definition track (userId productId : string) (now : Z) (w : world) : world :=
  match Neo4j.createUserInteraction userId productId "PURCHASED" now
          (graph w) with
  | Some g => with_graph w g
  | None => w
  end.

(** The loop of [POST /api/orders] over the requested lines.  It answers
    with the failure of the first line that fails, or with the subtotal
    and the order lines; the stores are left as the lines processed so far
    have changed them. *)
Fixpoint process (userId : string) (now : Z) (items : list request_item)
  (subtotal : float) (orderItems : list Order.item) (w : world)
  : (failure + float * list Order.item) * world :=
  match items with
  | [] => (inr (subtotal, orderItems), w)
  | item :: rest =>
    match Product.findById (product item) (products w) with
    | None => (inl NotFound, w)
    | Some p =>
      if Product.stock p <? quantity item then (inl InsufficientStock, w)
      else
        let itemTotal := (Product.price p * Num.of_Z (quantity item))%float in
        let subtotal := (subtotal + itemTotal)%float in
        let orderItems :=
          orderItems ++ [Order.Item (product item) (quantity item)
                           (Product.price p) (Product.name p) (Product.image p)] in
        let p' := Product.with_stock p (Product.stock p - quantity item) in
        match Product.save (product item) p' (products w) with
        | None => (inl ServerError, w)
        | Some db =>
          process userId now rest subtotal orderItems
            (track userId (product item) now (with_products w db))
        end
    end
  end.

Definition tax_of (subtotal : float) : float := (subtotal * 0.08)%float.

Definition shipping_of (subtotal : float) : float :=
  if (100 <? subtotal)%float then 0%float else 10%float.

(** [POST /api/orders] *)
Definition createOrder (userId : string) (items : list request_item)
  (shippingAddress paymentMethod : string) (now : Z) (w : world)
  : response Order.t * world :=
  match items with
  | [] => (Fail BadRequest, w)
  | _ =>
    match process userId now items 0%float [] w with
    | (inl e, w1) => (Fail e, w1)
    | (inr (subtotal, orderItems), w1) =>
      let tax := tax_of subtotal in
      let shippingCost := shipping_of subtotal in
      let total := (subtotal + tax + shippingCost)%float in
      let '(order, db) :=
        Order.create userId orderItems shippingAddress paymentMethod
          subtotal tax shippingCost total (orders w1) in
      let w2 := with_orders w1 db in
      let w3 := with_redis w2 (RedisService.deleteCart userId (redis w2)).2 in
      (Ok order, w3)
    end
  end.

(** The loop of [PUT /api/orders/:id/cancel] that gives the stock back; the
    flag is [false] when a [save] has thrown. *)
Fixpoint restore (items : list Order.item) (db : gmap string Product.t)
  : bool * gmap string Product.t :=
  match items with
  | [] => (true, db)
  | item :: rest =>
    match Product.findById (Order.product item) db with
    | Some p =>
      let p' := Product.with_stock p (Product.stock p + Order.quantity item) in
      match Product.save (Order.product item) p' db with
      | Some db' => restore rest db'
      | None => (false, db)
      end
    | None => restore rest db
    end
  end.

Definition cannot_cancel (orderStatus : string) : bool :=
  bool_decide (orderStatus ∈ ["shipped"; "delivered"; "cancelled"]).

(** [PUT /api/orders/:id/cancel] *)
Definition cancel (userId : string) (id : nat) (cancellationReason : option string)
  (now : Z) (w : world) : response Order.t * world :=
  match Order.findById id (orders w) with
  | None => (Fail NotFound, w)
  | Some order =>
    if negb (String.eqb (Order.user order) userId) then (Fail AccessDenied, w)
    else if cannot_cancel (Order.orderStatus order) then (Fail InvalidState, w)
    else
      match restore (Order.items order) (products w) with
      | (false, db) => (Fail ServerError, with_products w db)
      | (true, db) =>
        let order' := Order.cancelled order now cancellationReason in
        (Ok order', with_orders (with_products w db) (<[id := order']> (orders w)))
      end
  end.

End Orders.

(** ** What the cart operations are to do, in the words of the specification *)

Module CartSpec.

Import Cart.

(** The lines a route works on: a missing cart is the empty one. *)
Definition lines (s : stored) : option (list line) :=
  match s with
  | Null => Some []
  | Items items => Some items
  | Malformed => None
  end.

(** The quantity of the line of a product, if the cart has one. *)
Definition line_quantity (productId : string) (items : list line) : option Z :=
  quantity <$> List.find (same_product productId) items.

Definition has_line (productId : string) (items : list line) : bool :=
  existsb (same_product productId) items.

(** Merge into the line of the product, summing the quantities, or append
    a new line. *)
Fixpoint merge (productId : string) (q : Z) (items : list line) : list line :=
  match items with
  | [] => [Line productId q]
  | l :: rest =>
    if same_product productId l then Line (product l) (quantity l + q) :: rest
    else l :: merge productId q rest
  end.

(** Overwrite the quantity of the line of the product. *)
Fixpoint set_quantity (productId : string) (q : Z) (items : list line)
  : list line :=
  match items with
  | [] => []
  | l :: rest =>
    if same_product productId l then Line (product l) q :: rest
    else l :: set_quantity productId q rest
  end.

(** Remove the line of the product. *)
Fixpoint remove_line (productId : string) (items : list line) : list line :=
  match items with
  | [] => []
  | l :: rest =>
    if same_product productId l then rest
    else l :: remove_line productId rest
  end.

(** The requests of a user to the cart routes. *)
Inductive request :=
| Add (productId : string) (quantity : option Z)
| Update (productId : string) (quantity : option Z)
| Remove (productId : string)
| Clear.

Definition handle (userId : string) (rq : request) (w : world) : world :=
  match rq with
  | Add productId quantity => (addItem userId productId quantity w).2
  | Update productId quantity => (updateItem userId productId quantity w).2
  | Remove productId => (removeItem userId productId w).2
  | Clear => (clearCart userId w).2
  end.

(** The states of the stores that the cart of a user can be in, starting
    without a cart: the user sends requests that [allowed] admits, the
    catalogue changes, and time passes. *)
Inductive reachable (allowed : request → Prop) (userId : string)
  : world → Prop :=
| reach_empty w :
    read userId (redis w) = Null → reachable allowed userId w
| reach_request w rq :
    reachable allowed userId w → allowed rq →
    reachable allowed userId (handle userId rq w)
| reach_catalogue w db :
    reachable allowed userId w → reachable allowed userId (with_products w db)
| reach_time w d :
    reachable allowed userId w →
    reachable allowed userId (with_redis w (RedisService.elapse d (redis w))).

Definition unique_products (s : stored) : Prop :=
  match s with
  | Items items => NoDup (product <$> items)
  | Null => True
  | Malformed => False
  end.

Definition positive_quantities (s : stored) : Prop :=
  match s with
  | Items items => Forall (λ l, 0 < quantity l) items
  | Null => True
  | Malformed => False
  end.

(** A request that adds a quantity asks for at least one unit. *)
Definition adds_positive (rq : request) : Prop :=
  match rq with
  | Add _ (Some q) => 0 < q
  | _ => True
  end.

(** A line joined with the live record of its product, when the product
    exists and is active. *)
Definition live (db : gmap string Product.t) (l : line) : option view_item :=
  match db !! product l with
  | Some p =>
    if Product.isActive p then
      Some (ViewItem (product l) (Product.name p) (Product.price p)
              (Product.image p) (quantity l) (Product.stock p)
              (Product.price p * Num.of_Z (quantity l))%float)
    else None
  | None => None
  end.

Definition available (productId : string) (w : world) : bool :=
  match products w !! productId with
  | Some p => Product.isActive p
  | None => false
  end.

Definition holds_line (userId productId : string) (w : world) : bool :=
  match read userId (redis w) with
  | Items items => has_line productId items
  | _ => false
  end.

(** The claim about [NotFound] as the specification words it: the cart is
    missing or has no line for the product. *)
Definition not_found_iff_no_line (userId productId : string) (q : Z)
  (w : world) : Prop :=
  (updateItem userId productId (Some q) w).1 = Fail NotFound
  ↔ holds_line userId productId w = false.

End CartSpec.

(** ** What the order routes are to do, in the words of the specification *)

Module OrdersSpec.

Import Orders.

(** The units of a product that the lines of a request ask for. *)
Definition ordered (productId : string) (items : list request_item) : Z :=
  foldr (λ item n, if String.eqb (product item) productId
                   then quantity item + n else n) 0 items.

(** The units of a product in the lines of an order. *)
Definition returned (productId : string) (items : list Order.item) : Z :=
  foldr (λ item n, if String.eqb (Order.product item) productId
                   then Order.quantity item + n else n) 0 items.

(** The order line of a requested line: the quantity asked for and the
    price, name and image of the product in the catalogue [db]. *)
Definition snapshot_of (db : gmap string Product.t) (item : request_item)
  (line : Order.item) : Prop :=
  ∃ p, db !! product item = Some p
       ∧ line = Order.Item (product item) (quantity item) (Product.price p)
                  (Product.name p) (Product.image p).

(** The sum over the lines of unit price times quantity, in line order. *)
Definition sum_lines (lines : list Order.item) : float :=
  fold_left (λ sum l, sum + Order.price l * Num.of_Z (Order.quantity l))%float
    lines 0%float.

(** The catalogue after [moved productId] units have been added to the
    stock of every product. *)
Definition stock_moved (moved : string → Z) (db db' : gmap string Product.t)
  : Prop :=
  ∀ productId,
    db' !! productId
    = (λ p, Product.with_stock p (Product.stock p + moved productId))
        <$> db !! productId.

End OrdersSpec.

(** ** The entries that the wrappers of the cache service keep *)

Module CacheSpec.

Import JSON RedisService Cache SearchCache.

(** The kinds of entry that the wrappers of the service keep. *)
Inductive kind := Session | CartEntry | ProductEntry | UserEntry | SearchEntry.





End CacheSpec.

(** ** Worlds for the examples *)

Module Examples.

Import JSON RedisService Cart Orders.

Definition cached_product : json :=
  JObj [("name", JStr "Desk lamp"); ("price", JNum 25);
        ("tags", JArr [JStr "home"; JStr "light"]);
        ("rating", JObj [("average", JNum 4); ("count", JNum 12)])].

(** A shop with one product, a lamp at 10.00 of which [stock] are left,
    no cart, no order and an empty graph. *)
Definition shop (stock : Z) : world :=
  World (RedisService.Make Online ∅)
        {[ "p1" := Product.Make "Desk lamp" 10%float ["lamp.png"] stock true ]}
        [] (Neo4j.Make true ∅ ∅ []).

(** A shop whose lamp has been withdrawn while it was in the cart of [u1]. *)
Definition withdrawn : world :=
  write "u1" [Line "p1" 2]
    (World (RedisService.Make Online ∅)
       {[ "p1" := Product.Make "Desk lamp" 10%float ["lamp.png"] 7 false ]}
       [] (Neo4j.Make true ∅ ∅ [])).

(** A shop with a lamp and a withdrawn chair, both in the cart of [u1]. *)
Definition showroom : world :=
  write "u1" [Line "p1" 2; Line "p2" 1]
    (World (RedisService.Make Online ∅)
       {[ "p1" := Product.Make "Desk lamp" 10%float ["lamp.png"] 7 true;
          "p2" := Product.Make "Chair" 45%float [] 3 false ]}
       [] (Neo4j.Make true ∅ ∅ [])).

(** A shop with two products and the pending order of [u1] for two lamps
    and three mugs. *)
Definition warehouse (status : string) : world :=
  World (RedisService.Make Online ∅)
    {[ "p1" := Product.Make "Desk lamp" 10%float ["lamp.png"] 8 true;
       "p2" := Product.Make "Mug" 5%float [] 0 true ]}
    [Order.Make "u1"
       [Order.Item "p1" 2 10%float "Desk lamp" "lamp.png";
        Order.Item "p2" 3 5%float "Mug" EmptyString]
       "1 Main St" "card" 35%float 2.8000000000000003%float 10%float
       47.8%float status None None None]
    (Neo4j.Make true ∅ ∅ []).

(** A shop with lamps at 10.00 and mugs at 5.00, both known to the graph,
    and the cart of [u1]. *)
Definition bazaar : world :=
  Cart.write "u1" [Cart.Line "p1" 2; Cart.Line "p2" 3]
    (World (RedisService.Make Online ∅)
       {[ "p1" := Product.Make "Desk lamp" 10%float ["lamp.png"] 8 true;
          "p2" := Product.Make "Mug" 5%float [] 3 true ]}
       [] (Neo4j.Make true {[ "u1" ]} {[ "p1"; "p2" ]} [])).

Definition two_lamps_three_mugs : list request_item :=
  [RequestItem "p1" 2; RequestItem "p2" 3].

End Examples.

(** * Properties *)

(** ** Strings *)

Module StrFacts.

Import Str.

Lemma app_cons (x : ascii) (a b : string) :
  String x a +:+ b = String x (a +:+ b).
Proof. reflexivity. Qed.

Lemma app_nil_l (a : string) : EmptyString +:+ a = a.
Proof. reflexivity. Qed.

Lemma app_assoc (a b c : string) : (a +:+ b) +:+ c = a +:+ (b +:+ c).
Proof.
  induction a as [|x a IH]; [reflexivity |].
  rewrite !app_cons. now rewrite IH.
Qed.

Lemma app_nil_r (a : string) : a +:+ EmptyString = a.
Proof.
  induction a as [|x a IH]; [reflexivity |].
  rewrite app_cons. now rewrite IH.
Qed.

Lemma length_app (a b : string) :
  String.length (a +:+ b) = (String.length a + String.length b)%nat.
Proof.
  induction a as [|x a IH]; [reflexivity |].
  rewrite app_cons. simpl. now rewrite IH.
Qed.

Lemma strip_prefix_app (p s : string) : strip_prefix p (p +:+ s) = Some s.
Proof.
  induction p as [|a p IH]; [reflexivity |].
  rewrite app_cons. simpl. now rewrite Ascii.eqb_refl.
Qed.

End StrFacts.

(** ** JSON: parsing what [stringify] writes *)

Module JSONFacts.

Import Str StrFacts JSON.

(** *** Induction over nested values *)

Section json_induction.
Variable P : json → Prop.
Hypothesis Hnull : P JNull.
Hypothesis Hbool : ∀ b, P (JBool b).
Hypothesis Hnum : ∀ n, P (JNum n).
Hypothesis Hstr : ∀ s, P (JStr s).
Hypothesis Harr : ∀ xs, Forall P xs → P (JArr xs).
Hypothesis Hobj : ∀ kvs, Forall (λ kv, P kv.2) kvs → P (JObj kvs).

Fixpoint json_nested_ind (v : json) : P v :=
  match v with
  | JNull => Hnull
  | JBool b => Hbool b
  | JNum n => Hnum n
  | JStr s => Hstr s
  | JArr xs =>
    Harr xs ((fix go (l : list json) : Forall P l :=
                match l with
                | [] => @List.Forall_nil _ P
                | x :: r => @List.Forall_cons _ P x r (json_nested_ind x) (go r)
                end) xs)
  | JObj kvs =>
    Hobj kvs ((fix go (l : list (string * json)) : Forall (λ kv, P kv.2) l :=
                 match l with
                 | [] => @List.Forall_nil _ _
                 | kv :: r =>
                   @List.Forall_cons _ (λ kv, P kv.2) kv r (json_nested_ind kv.2) (go r)
                 end) kvs)
  end.
End json_induction.

Lemma stringify_arr xs : stringify (JArr xs) = String "[" (elements xs +:+ "]").
Proof. reflexivity. Qed.

Lemma stringify_obj kvs : stringify (JObj kvs) = String "{" (members kvs +:+ "}").
Proof. reflexivity. Qed.

Lemma elements_single x : elements [x] = stringify x.
Proof. reflexivity. Qed.

Lemma members_single k x :
  members [(k, x)] = quote_string k +:+ String ":" (stringify x).
Proof. reflexivity. Qed.

Lemma elements_cons x y r :
  elements (x :: y :: r) = stringify x +:+ String "," (elements (y :: r)).
Proof. reflexivity. Qed.

Lemma members_cons k x kv r :
  members ((k, x) :: kv :: r)
  = quote_string k +:+ String ":" (stringify x) +:+ String "," (members (kv :: r)).
Proof. reflexivity. Qed.

(** *** Round trip: numbers *)

Lemma to_int_not_nil z :
  Z.to_int z ≠ Decimal.Pos Decimal.Nil ∧ Z.to_int z ≠ Decimal.Neg Decimal.Nil.
Proof.
  destruct z as [|p|p]; simpl; split; try discriminate;
    intros [= E]; now apply (Unsigned.to_uint_nonnil p).
Qed.

Lemma parse_Z_print z : parse_Z (print_Z z) = Some z.
Proof.
  unfold parse_Z, print_Z.
  destruct (to_int_not_nil z) as [H1 H2].
  rewrite NilZero.isi by assumption.
  rewrite DecimalZ.of_to. now rewrite String.eqb_refl.
Qed.

Lemma parse_number_print z : parse_number (print_Z z) = Some z.
Proof.
  unfold parse_number. destruct (String.eqb_spec (print_Z z) "-0") as [E|_];
    [| apply parse_Z_print].
  pose proof (parse_Z_print z) as H. rewrite E in H. discriminate.
Qed.

Lemma span_digits d rest :
  num_head rest = false →
  span_num (NilEmpty.string_of_uint d +:+ rest) = (NilEmpty.string_of_uint d, rest).
Proof.
  intros H. induction d; simpl NilEmpty.string_of_uint;
    rewrite ?app_cons; simpl; rewrite ?IHd; try reflexivity.
  rewrite app_nil_l. destruct rest as [|c r]; [reflexivity |].
  simpl in *. now rewrite H.
Qed.

Lemma span_uint d rest :
  num_head rest = false →
  span_num (NilZero.string_of_uint d +:+ rest) = (NilZero.string_of_uint d, rest).
Proof.
  intros H. destruct d; try apply (span_digits _ _ H).
  simpl NilZero.string_of_uint. rewrite app_cons, app_nil_l. simpl.
  destruct rest as [|c r]; [reflexivity |]. simpl in *. now rewrite H.
Qed.

Lemma span_num_print z rest :
  num_head rest = false →
  span_num (print_Z z +:+ rest) = (print_Z z, rest).
Proof.
  intros H. unfold print_Z.
  destruct (Z.to_int z) as [d|d]; simpl NilZero.string_of_int.
  - now apply span_uint.
  - rewrite app_cons. simpl. now rewrite span_uint.
Qed.

Lemma num_head_print z rest : num_head (print_Z z +:+ rest) = true.
Proof.
  unfold print_Z. destruct (Z.to_int z) as [d|d]; [|reflexivity].
  destruct d; reflexivity.
Qed.

Lemma numchar_not_close c r :
  is_numchar c = true → strip_prefix "]" (String c r) = None.
Proof. destruct c as [[] [] [] [] [] [] [] []]; (discriminate || reflexivity). Qed.

(** *** Round trip: strings *)

Lemma parse_chars_quote_char c t :
  parse_chars (quote_char c +:+ t)
  = match parse_chars t with
    | Some (str, rest) => Some (String c str, rest)
    | None => None
    end.
Proof. destruct c as [[] [] [] [] [] [] [] []]; reflexivity. Qed.

Lemma parse_chars_body s rest :
  parse_chars (quote_body s +:+ String quote rest) = Some (s, rest).
Proof.
  induction s as [|c s IH]; [reflexivity |].
  simpl quote_body. rewrite app_assoc, parse_chars_quote_char. now rewrite IH.
Qed.

Lemma length_cons c s : String.length (String c s) = S (String.length s).
Proof. reflexivity. Qed.

Lemma quote_string_app k t :
  quote_string k +:+ t = String quote (quote_body k +:+ String quote t).
Proof. unfold quote_string, char. now rewrite app_cons, app_assoc. Qed.

Lemma length_quote_string k : (2 <= String.length (quote_string k))%nat.
Proof.
  unfold quote_string, char. simpl. rewrite length_app. simpl. lia.
Qed.

Lemma parse_elements_S f s :
  parse_elements (S f) s
  = match parse_value f s with
    | Some (v, String "," r) =>
      match parse_elements f r with
      | Some (vs, r') => Some (v :: vs, r')
      | None => None
      end
    | Some (v, String "]" r) => Some ([v], r)
    | _ => None
    end.
Proof. reflexivity. Qed.

Lemma parse_members_quote f acc r :
  parse_members (S f) acc (String quote r)
  = match parse_chars r with
    | Some (k, String ":" r1) =>
      match parse_value f r1 with
      | Some (v, String "," r2) => parse_members f (obj_set k v acc) r2
      | Some (v, String "}" r2) => Some (obj_set k v acc, r2)
      | _ => None
      end
    | _ => None
    end.
Proof. reflexivity. Qed.

Lemma close_not_head v rest : strip_prefix "]" (stringify v +:+ rest) = None.
Proof.
  destruct v as [|[]|n|s|xs|kvs]; try reflexivity.
  pose proof (num_head_print n rest) as H. simpl stringify.
  destruct (print_Z n +:+ rest) as [|c r]; [discriminate |].
  now apply numchar_not_close.
Qed.

Lemma parse_elements_ok xs :
  xs ≠ [] → Forall round_trips xs → fold_right (λ x acc, wf x ∧ acc) True xs →
  ∀ fuel rest, (String.length (elements xs) + 1 < fuel)%nat →
  parse_elements fuel (elements xs +:+ String "]" rest) = Some (xs, rest).
Proof.
  induction xs as [|x xs IH]; [done |].
  intros _ HF [Hx Hxs] fuel rest Hf.
  destruct fuel as [|f]; [lia |].
  apply Forall_cons in HF as [Hrt HF].
  rewrite parse_elements_S. destruct xs as [|y r].
  - rewrite elements_single in *.
    rewrite (Hrt Hx) by (lia || reflexivity). reflexivity.
  - rewrite elements_cons in *. rewrite length_app, length_cons in Hf.
    rewrite app_assoc, app_cons, (Hrt Hx) by (lia || reflexivity).
    rewrite IH by (done || lia). reflexivity.
Qed.

Lemma obj_set_fresh k v acc : k ∉ acc.*1 → obj_set k v acc = acc ++ [(k, v)].
Proof.
  induction acc as [|[k' v'] acc IH]; [reflexivity |].
  intros Hk. simpl in *. apply not_elem_of_cons in Hk as [Hne Hk].
  destruct (String.eqb_spec k' k); [congruence |]. now rewrite IH.
Qed.

Lemma parse_members_ok kvs :
  kvs ≠ [] → Forall (λ kv, round_trips kv.2) kvs →
  fold_right (λ kv acc, wf kv.2 ∧ acc) True kvs →
  ∀ acc fuel rest, NoDup (acc.*1 ++ kvs.*1) →
    (String.length (members kvs) + 1 < fuel)%nat →
    parse_members fuel acc (members kvs +:+ String "}" rest)
    = Some (acc ++ kvs, rest).
Proof.
  induction kvs as [|[k x] kvs IH]; [done |].
  intros _ HF [Hx Hxs] acc fuel rest Hnd Hf.
  destruct fuel as [|f]; [lia |].
  apply Forall_cons in HF as [Hrt HF]. simpl in Hrt, Hx.
  assert (Hk : k ∉ acc.*1).
  { apply NoDup_app in Hnd as (_ & Hd & _). intros Hin.
    apply (Hd k Hin). simpl. left. }
  pose proof (length_quote_string k) as Hq.
  destruct kvs as [|kv r].
  - rewrite members_single in *. rewrite length_app, length_cons in Hf.
    rewrite app_assoc, app_cons, quote_string_app, parse_members_quote.
    rewrite parse_chars_body, (Hrt Hx) by (lia || reflexivity).
    now rewrite obj_set_fresh.
  - rewrite members_cons in *.
    repeat (rewrite length_app in Hf || rewrite length_cons in Hf).
    rewrite !app_assoc, !app_cons.
    rewrite quote_string_app, parse_members_quote.
    rewrite parse_chars_body, (Hrt Hx) by (lia || reflexivity).
    rewrite obj_set_fresh by done.
    rewrite IH; [now rewrite <- List.app_assoc | done | done | done | | lia].
    rewrite fmap_app, <- List.app_assoc. exact Hnd.
Qed.

Lemma parse_value_stringify v : round_trips v.
Proof.
  induction v as [|b|n|s|xs IH|kvs IH] using json_nested_ind;
    intros Hwf fuel rest Hf Hrest; (destruct fuel as [|f]; [lia |]).
  - reflexivity.
  - destruct b; reflexivity.
  - simpl stringify. simpl parse_value.
    rewrite num_head_print, span_num_print, parse_number_print by done.
    reflexivity.
  - simpl stringify. rewrite quote_string_app. simpl.
    now rewrite parse_chars_body.
  - rewrite stringify_arr in *. rewrite length_cons, length_app in Hf.
    change (String.length "]") with 1%nat in Hf.
    rewrite app_cons, app_assoc.
    destruct xs as [|x xs]; [reflexivity |].
    change (parse_value (S f) ?s) with
      (match strip_prefix "]" (elements (x :: xs) +:+ "]" +:+ rest) with
       | Some r' => Some (JArr [], r')
       | None =>
         match parse_elements f (elements (x :: xs) +:+ "]" +:+ rest) with
         | Some (ys, r') => Some (JArr ys, r')
         | None => None
         end
       end).
    assert (strip_prefix "]" (elements (x :: xs) +:+ "]" +:+ rest) = None) as ->.
    { destruct xs; [apply close_not_head |].
      rewrite elements_cons, app_assoc. apply close_not_head. }
    change ("]" +:+ rest) with (String "]" rest).
    rewrite parse_elements_ok by (done || lia). reflexivity.
  - rewrite stringify_obj in *. rewrite length_cons, length_app in Hf.
    change (String.length "}") with 1%nat in Hf.
    rewrite app_cons, app_assoc.
    destruct kvs as [|[k x] kvs]; [reflexivity |].
    destruct Hwf as [Hnd Hwf].
    change (parse_value (S f) ?s) with
      (match strip_prefix "}" (members ((k, x) :: kvs) +:+ "}" +:+ rest) with
       | Some r' => Some (JObj [], r')
       | None =>
         match parse_members f [] (members ((k, x) :: kvs) +:+ "}" +:+ rest) with
         | Some (ys, r') => Some (JObj ys, r')
         | None => None
         end
       end).
    assert (strip_prefix "}" (members ((k, x) :: kvs) +:+ "}" +:+ rest) = None) as ->.
    { destruct kvs as [|[] ?]; reflexivity. }
    change ("}" +:+ rest) with (String "}" rest).
    rewrite parse_members_ok by (done || lia). reflexivity.
Qed.

Theorem parse_stringify v : wf v → parse (stringify v) = Some v.
Proof.
  intros Hwf. unfold parse.
  pose proof (parse_value_stringify v Hwf (S (String.length (stringify v)))
                EmptyString ltac:(lia) eq_refl) as H.
  rewrite app_nil_r in H. now rewrite H.
Qed.

Lemma stringify_nonempty v : stringify v ≠ EmptyString.
Proof.
  destruct v as [|[]|n|s|xs|kvs]; try discriminate.
  simpl. pose proof (num_head_print n EmptyString) as H.
  rewrite app_nil_r in H. now destruct (print_Z n).
Qed.

End JSONFacts.

(** ** The key space *)

Module RedisFacts.

Lemma lookup_elapse d db key :
  Redis.elapse d db !! key = db !! key ≫= Redis.age d.
Proof. apply lookup_omap. Qed.

Lemma elapse_absent d db key :
  db !! key = None → Redis.elapse d db !! key = None.
Proof. intros H. now rewrite lookup_elapse, H. Qed.

End RedisFacts.

(** ** The cache and the rate limiter *)

Module RedisServiceFacts.

Import Str JSON JSONFacts RedisService Examples.

Lemma set_online r key v seconds :
  client r = Online → 0 < seconds →
  set key v seconds r
  = (true, with_db r (<[key := Redis.Entry (stringify v) (Some seconds)]> (db r))).
Proof.
  intros Hc Hs. unfold set, Redis.setEx. rewrite Hc.
  destruct (Z.leb_spec seconds 0); [lia | reflexivity].
Qed.

Lemma set_unreachable r key v seconds :
  client r ≠ Online → set key v seconds r = (false, r).
Proof. unfold set. now destruct (client r). Qed.

Lemma get_online r key e :
  client r = Online → db r !! key = Some e →
  get key r = match Redis.payload e with
              | EmptyString => JNull
              | value => default JNull (parse value)
              end.
Proof.
  intros Hc He. unfold get, Redis.get. rewrite Hc, He. simpl.
  destruct (Redis.payload e); [reflexivity |]. now destruct (parse _).
Qed.

Lemma get_missing r key : db r !! key = None → get key r = JNull.
Proof.
  intros He. unfold get, Redis.get. rewrite He. now destruct (client r).
Qed.

Lemma get_unreachable r key : client r ≠ Online → get key r = JNull.
Proof. unfold get. now destruct (client r). Qed.

Lemma get_stringify r key v t :
  client r = Online → wf v →
  db r !! key = Some (Redis.Entry (stringify v) t) → get key r = v.
Proof.
  intros Hc Hwf He. rewrite (get_online _ _ _ Hc He). simpl.
  pose proof (stringify_nonempty v) as Hne.
  destruct (stringify v) eqn:E; [done |].
  rewrite <- E. now rewrite parse_stringify.
Qed.




(** *** Rate limiting *)


Lemma checkRateLimit_first key limit w r :
  client r = Online → db r !! key = None → 0 < w →
  checkRateLimit key limit w r
  = (1 <=? limit, with_db r (<[key := Redis.Entry (print_Z 1) (Some w)]> (db r))).
Proof.
  intros Hc Hk Hw. unfold checkRateLimit, Redis.incr. rewrite Hc, Hk. simpl.
  unfold Redis.expire. rewrite lookup_insert_eq.
  destruct (Z.leb_spec w 0); [lia |]. simpl. now rewrite insert_insert_eq.
Qed.

Lemma checkRateLimit_next key limit w r n t :
  client r = Online → db r !! key = Some (Redis.Entry (print_Z n) t) → 0 < w →
  checkRateLimit key limit w r
  = (n + 1 <=? limit,
     with_db r (<[key := Redis.Entry (print_Z (n + 1))
                           (if n + 1 =? 1 then Some w else t)]> (db r))).
Proof.
  intros Hc Hk Hw. unfold checkRateLimit, Redis.incr. rewrite Hc, Hk. simpl.
  rewrite parse_Z_print. destruct (Z.eqb_spec (n + 1) 1); [| reflexivity].
  unfold Redis.expire. rewrite lookup_insert_eq.
  destruct (Z.leb_spec w 0); [lia |]. simpl. now rewrite insert_insert_eq.
Qed.

Lemma burst_running key limit w pauses : ∀ r n t,
  client r = Online → db r !! key = Some (Redis.Entry (print_Z n) (Some t)) →
  0 < n → 0 < w → Forall (λ d, 0 ≤ d) pauses → foldr Z.add 0 pauses < t →
  (burst key limit w pauses r).1
  = imap (λ i _, n + 1 + Z.of_nat i <=? limit) pauses.
Proof.
  induction pauses as [|d rest IH]; intros r n t Hc Hk Hn Hw Hp Hsum;
    [reflexivity |].
  apply Forall_cons in Hp as [Hd Hp]. simpl in Hsum.
  assert (0 ≤ foldr Z.add 0 rest) as Hrest.
  { clear -Hp. induction Hp; simpl; lia. }
  simpl burst.
  assert (db (elapse d r) !! key
          = Some (Redis.Entry (print_Z n) (Some (t - d)))) as Hk'.
  { simpl. rewrite RedisFacts.lookup_elapse, Hk. simpl. unfold Redis.age. simpl.
    destruct (Z.leb_spec t d); [lia | reflexivity]. }
  rewrite (checkRateLimit_next _ _ _ _ n (Some (t - d))) by done.
  destruct (Z.eqb_spec (n + 1) 1); [lia |].
  destruct (burst _ _ _ rest _) as [more r2] eqn:E. simpl.
  f_equal.
  - f_equal. lia.
  - change more with (more, r2).1. rewrite <- E.
    rewrite (IH _ (n + 1) (t - d)); [| done | | lia | done | done | lia].
    + apply imap_ext. intros i x _. simpl. f_equal. lia.
    + simpl. now rewrite lookup_insert_eq.
Qed.





End RedisServiceFacts.

(** ** Properties of the cart routes *)

Module CartFacts.

Import Str JSON JSONFacts RedisService RedisServiceFacts Cart CartSpec.
Import Examples.

Lemma to_json_wf items : wf (to_json items).
Proof.
  simpl. split; [now apply (bool_decide_unpack _) |]. split; [| done].
  induction items as [|l items IH]; simpl; [done |].
  split; [| exact IH]. repeat split. now apply (bool_decide_unpack _).
Qed.

Lemma of_json_to_json items : of_json (to_json items) = Some items.
Proof.
  unfold of_json, to_json. simpl.
  induction items as [|[p q] items IH]; [reflexivity |].
  rewrite fmap_cons. cbn [mapM]. simpl line_of_json.
  now rewrite IH.
Qed.

Lemma with_redis_id w : with_redis w (redis w) = w.
Proof. now destruct w. Qed.

Lemma with_db_id r : with_db r (db r) = r.
Proof. now destruct r. Qed.

Lemma write_online userId items w :
  client (redis w) = Online →
  write userId items w
  = with_redis w
      (with_db (redis w)
         (<[cart_key userId :=
              Redis.Entry (stringify (to_json items)) (Some 86400)]>
            (db (redis w)))).
Proof.
  intros Hc. unfold write, RedisService.setCart. now rewrite set_online.
Qed.

Lemma write_unreachable userId items w :
  client (redis w) ≠ Online → write userId items w = w.
Proof.
  intros Hc. unfold write, RedisService.setCart. rewrite set_unreachable by done.
  apply with_redis_id.
Qed.

Lemma read_unreachable userId r : client r ≠ Online → read userId r = Null.
Proof.
  intros Hc. unfold read, RedisService.getCart. now rewrite get_unreachable.
Qed.

Lemma read_missing userId r :
  db r !! cart_key userId = None → read userId r = Null.
Proof.
  intros Hk. unfold read, RedisService.getCart. now rewrite get_missing.
Qed.

Lemma decode_to_json items : decode (to_json items) = Items items.
Proof.
  pose proof (of_json_to_json items) as H. unfold decode.
  unfold to_json in *. cbv iota. now rewrite H.
Qed.

Lemma read_write userId items w :
  client (redis w) = Online →
  read userId (redis (write userId items w)) = Items items.
Proof.
  intros Hc. rewrite write_online by done.
  unfold read, RedisService.getCart. simpl.
  rewrite (get_stringify _ _ (to_json items) (Some 86400));
    [| done | apply to_json_wf | simpl; apply lookup_insert_eq].
  apply decode_to_json.
Qed.

Lemma read_written userId items w :
  read userId (redis (write userId items w)) = Items items
  ∨ write userId items w = w.
Proof.
  destruct (decide (client (redis w) = Online)) as [Hc|Hc].
  - left. now apply read_write.
  - right. now apply write_unreachable.
Qed.

(** *** [findIndex] against the specification's operations *)

Lemma findIndex_merge productId q items :
  match findIndex (same_product productId) items with
  | Some i =>
    ∃ e, items !! i = Some e
         ∧ line_quantity productId items = Some (quantity e)
         ∧ <[i := Line (product e) (quantity e + q)]> items
           = merge productId q items
  | None =>
    line_quantity productId items = None
    ∧ items ++ [Line productId q] = merge productId q items
  end.
Proof.
  unfold line_quantity.
  induction items as [|l items IH]; simpl; [done |].
  destruct (same_product productId l) eqn:E; simpl.
  - exists l. done.
  - destruct (findIndex (same_product productId) items) as [i|]; simpl.
    + destruct IH as (e & He & Hq & Hm). exists e. simpl. now rewrite Hm.
    + destruct IH as [Hq Hm]. now rewrite Hm.
Qed.

Lemma findIndex_update productId q items :
  match findIndex (same_product productId) items with
  | Some i =>
    has_line productId items = true
    ∧ delete i items = remove_line productId items
    ∧ alter (λ item, Line (product item) q) i items
      = set_quantity productId q items
  | None => has_line productId items = false
  end.
Proof.
  unfold has_line.
  induction items as [|l items IH]; simpl; [done |].
  destruct (same_product productId l) eqn:E; simpl; [done |].
  destruct (findIndex (same_product productId) items) as [i|]; simpl; [| done].
  destruct IH as (Hh & Hd & Ha). now rewrite <- Hd, <- Ha.
Qed.

Lemma same_product_eq productId l :
  same_product productId l = true ↔ product l = productId.
Proof. unfold same_product. apply String.eqb_eq. Qed.

(** *** Unique products and positive quantities *)

Lemma products_merge productId q items :
  product <$> merge productId q items
  = if has_line productId items then product <$> items
    else (product <$> items) ++ [productId].
Proof.
  unfold has_line. induction items as [|l items IH]; csimpl; [done |].
  destruct (same_product productId l) eqn:E; csimpl; [done |].
  rewrite IH. now destruct (existsb _ items).
Qed.

Lemma has_line_elem productId items :
  has_line productId items = false → productId ∉ product <$> items.
Proof.
  unfold has_line. induction items as [|l items IH]; csimpl.
  - intros _. apply not_elem_of_nil.
  - destruct (same_product productId l) eqn:E; csimpl; [done |].
    intros H. apply not_elem_of_cons. split; [| now apply IH].
    intros ->. apply not_true_iff_false in E. apply E.
    now apply same_product_eq.
Qed.

Lemma unique_merge productId q items :
  NoDup (product <$> items) → NoDup (product <$> merge productId q items).
Proof.
  intros H. rewrite products_merge.
  destruct (has_line productId items) eqn:E; [done |].
  apply NoDup_app. split; [done |]. split; [| apply NoDup_singleton].
  intros x Hx Hin. apply list_elem_of_singleton in Hin as ->.
  now apply (has_line_elem _ _ E).
Qed.

Lemma products_set_quantity productId q items :
  product <$> set_quantity productId q items = product <$> items.
Proof.
  induction items as [|l items IH]; csimpl; [done |].
  destruct (same_product productId l); csimpl; [done | now rewrite IH].
Qed.

Lemma unique_remove_line productId items :
  NoDup (product <$> items) → NoDup (product <$> remove_line productId items).
Proof.
  induction items as [|l items IH]; csimpl; [done |].
  intros H. apply NoDup_cons in H as [Hl H].
  destruct (same_product productId l); csimpl; [done |].
  apply NoDup_cons. split; [| now apply IH].
  intros Hin. apply Hl. clear -Hin.
  induction items as [|l' items IH]; csimpl in *; [done |].
  destruct (same_product productId l'); csimpl in *.
  - now apply elem_of_cons; right.
  - apply elem_of_cons in Hin as [->|Hin]; [left | right; now apply IH].
Qed.

Lemma positive_merge productId q items :
  0 < q → Forall (λ l, 0 < quantity l) items →
  Forall (λ l, 0 < quantity l) (merge productId q items).
Proof.
  intros Hq. induction 1 as [|l items Hl H IH]; csimpl.
  - repeat constructor. done.
  - destruct (same_product productId l); constructor; csimpl; try done. lia.
Qed.

Lemma positive_set_quantity productId q items :
  0 < q → Forall (λ l, 0 < quantity l) items →
  Forall (λ l, 0 < quantity l) (set_quantity productId q items).
Proof.
  intros Hq. induction 1 as [|l items Hl H IH]; csimpl; [constructor |].
  destruct (same_product productId l); constructor; csimpl; done.
Qed.

Lemma positive_remove_line productId items :
  Forall (λ l, 0 < quantity l) items →
  Forall (λ l, 0 < quantity l) (remove_line productId items).
Proof.
  induction 1 as [|l items Hl H IH]; csimpl; [constructor |].
  destruct (same_product productId l); [done | now constructor].
Qed.

Lemma line_quantity_set_quantity productId q items :
  has_line productId items = true →
  line_quantity productId (set_quantity productId q items) = Some q.
Proof.
  unfold has_line, line_quantity.
  induction items as [|l items IH]; csimpl; [done |].
  destruct (same_product productId l) eqn:E; csimpl.
  - intros _. unfold same_product in *. csimpl. now rewrite E.
  - intros H. rewrite E. now apply IH.
Qed.

Lemma line_quantity_remove_line productId items :
  NoDup (product <$> items) →
  line_quantity productId (remove_line productId items) = None.
Proof.
  unfold line_quantity.
  induction items as [|l items IH]; csimpl; [done |].
  intros H. apply NoDup_cons in H as [Hl H].
  destruct (same_product productId l) eqn:E; csimpl.
  - apply same_product_eq in E. subst productId.
    destruct (List.find _ items) as [l'|] eqn:F; [| done].
    apply List.find_some in F as [Hin F]. apply same_product_eq in F.
    exfalso. apply Hl. rewrite <- F. apply list_elem_of_fmap.
    exists l'. split; [done |]. now apply list_elem_of_In.
  - rewrite E. now apply IH.
Qed.

(** *** Adding to the cart *)

Lemma addItem_unavailable userId productId quantity w :
  match products w !! productId with
  | Some p => Product.isActive p = false
  | None => True
  end →
  productId ≠ EmptyString →
  addItem userId productId quantity w = (Fail NotFound, w).
Proof.
  intros Hp Hne. unfold addItem, Product.findById.
  destruct (String.eqb_spec productId EmptyString); [done |].
  destruct (products w !! productId) as [p|]; [| done]. now rewrite Hp.
Qed.

Lemma addItem_available userId productId q w p items :
  productId ≠ EmptyString →
  products w !! productId = Some p → Product.isActive p = true →
  lines (read userId (redis w)) = Some items →
  Forall (λ l, 0 ≤ quantity l) items →
  addItem userId productId (Some q) w
  = if Product.stock p
       <? match line_quantity productId items with
          | Some e => e + q
          | None => q
          end
    then (Fail InsufficientStock, w)
    else (Ok (itemCount (merge productId q items)),
          write userId (merge productId q items) w).
Proof.
  intros Hne Hp Ha Hl Hpos. unfold addItem, Product.findById.
  destruct (String.eqb_spec productId EmptyString); [done |].
  rewrite Hp, Ha. simpl.
  pose proof (findIndex_merge productId q items) as Hf.
  destruct (read userId (redis w)) as [|items'|]; simpl in Hl; [| | done];
    injection Hl as <-.
  - simpl in *. now destruct (Product.stock p <? q).
  - destruct (findIndex (same_product productId) items') as [i|].
    + destruct Hf as (e & He & Hq & Hm). rewrite He, Hq, Hm.
      assert (0 ≤ quantity e) as Hqe.
      { rewrite Forall_lookup in Hpos. exact (Hpos _ _ He). }
      destruct (Z.ltb_spec (Product.stock p) q),
               (Z.ltb_spec (Product.stock p) (quantity e + q));
        (done || lia).
    + destruct Hf as [Hq Hm]. rewrite Hq, Hm.
      now destruct (Product.stock p <? q).
Qed.

(** C4.  [addItem] answers [NotFound] when the product is missing or
    inactive.  Otherwise, with [resulting] the quantity the line of the
    product would get (its quantity plus [q], or [q] when the cart has no
    such line), it answers [InsufficientStock] and leaves the stores as
    they are when [resulting] exceeds the stock, and else stores the cart
    with [q] merged into that line or appended as a new line.  Adding 2 and
    then 3 of a product with stock 10 gives one line of 5; with stock 4 the
    second request fails and the line stays at 2.  The stored cart is one
    of the data model, or at least has no line of a negative quantity. *)
Theorem addItem_spec (userId productId : string) (q : Z) (w : world)
  (items : list line) :
  client (redis w) = Online → productId ≠ EmptyString →
  lines (read userId (redis w)) = Some items →
  Forall (λ l, 0 ≤ quantity l) items →
  match products w !! productId with
  | None => addItem userId productId (Some q) w = (Fail NotFound, w)
  | Some p =>
    if Product.isActive p then
      let resulting :=
        match line_quantity productId items with
        | Some e => e + q
        | None => q
        end in
      if Product.stock p <? resulting
      then addItem userId productId (Some q) w = (Fail InsufficientStock, w)
      else
        let items' := merge productId q items in
        addItem userId productId (Some q) w
        = (Ok (itemCount items'), write userId items' w)
        ∧ read userId (redis (write userId items' w)) = Items items'
    else addItem userId productId (Some q) w = (Fail NotFound, w)
  end
  ∧ (let w1 := (addItem "u1" "p1" (Some 2) (shop 10)).2 in
     let w2 := (addItem "u1" "p1" (Some 3) w1).2 in
     read "u1" (redis w2) = Items [Line "p1" 5])
  ∧ (let w1 := (addItem "u1" "p1" (Some 2) (shop 4)).2 in
     addItem "u1" "p1" (Some 3) w1 = (Fail InsufficientStock, w1)
     ∧ read "u1" (redis w1) = Items [Line "p1" 2]).
Proof.
  intros Hc Hne Hl Hpos.
  split; [| split; [| split]; vm_compute; reflexivity].
  destruct (products w !! productId) as [p|] eqn:Hp.
  - destruct (Product.isActive p) eqn:Ha.
    + rewrite (addItem_available userId productId q w p items) by done.
      simpl. destruct (Product.stock p <? _); [done |].
      split; [done | now apply read_write].
    + apply addItem_unavailable; [| done]. now rewrite Hp.
  - apply addItem_unavailable; [| done]. now rewrite Hp.
Qed.

(** Three more lamps for a cart that holds two, with ten in stock. *)
Lemma addItem_spec_witness :
  let w := write "u1" [Line "p1" 2] (shop 10) in
  addItem "u1" "p1" (Some 3) w = (Ok 5, write "u1" [Line "p1" 5] w)
  ∧ read "u1" (redis (write "u1" [Line "p1" 5] w)) = Items [Line "p1" 5].
Proof.
  pose proof (addItem_spec "u1" "p1" 3 (write "u1" [Line "p1" 2] (shop 10))
                [Line "p1" 2]) as H.
  destruct H as [H _]; [reflexivity | discriminate | vm_compute; reflexivity
                       | repeat constructor; simpl; lia |].
  vm_compute in H. vm_compute. exact H.
Defined.

(** *** Updating a line *)

(** The lamp in the cart has been withdrawn: the update is refused with
    [NotFound] although the cart exists and has a line for the lamp. *)
Lemma updateItem_withdrawn_product :
  holds_line "u1" "p1" withdrawn = true
  ∧ updateItem "u1" "p1" (Some 0) withdrawn = (Fail NotFound, withdrawn)
  ∧ ¬ not_found_iff_no_line "u1" "p1" 0 withdrawn.
Proof.
  assert (holds_line "u1" "p1" withdrawn = true) as H1
    by (vm_compute; reflexivity).
  assert (updateItem "u1" "p1" (Some 0) withdrawn = (Fail NotFound, withdrawn))
    as H2 by (vm_compute; reflexivity).
  repeat split; try done.
  intros [Hi _]. rewrite H2 in Hi. specialize (Hi eq_refl). congruence.
Qed.

Lemma updateItem_held userId productId q w p items :
  productId ≠ EmptyString → 0 ≤ q →
  products w !! productId = Some p → Product.isActive p = true →
  read userId (redis w) = Items items → has_line productId items = true →
  updateItem userId productId (Some q) w
  = if q =? 0
    then (Ok (itemCount (remove_line productId items)),
          write userId (remove_line productId items) w)
    else if Product.stock p <? q then (Fail InsufficientStock, w)
    else (Ok (itemCount (set_quantity productId q items)),
          write userId (set_quantity productId q items) w).
Proof.
  intros Hne Hq Hp Ha Hr Hh. unfold updateItem, Product.findById.
  destruct (String.eqb_spec productId EmptyString); [done |].
  destruct (Z.ltb_spec q 0); [lia |].
  rewrite Hp, Ha, Hr. simpl.
  pose proof (findIndex_update productId q items) as Hf.
  destruct (findIndex (same_product productId) items) as [i|]; [| congruence].
  destruct Hf as (_ & Hd & Hs). now rewrite Hd, Hs.
Qed.

Lemma updateItem_not_found userId productId q w :
  productId ≠ EmptyString → 0 ≤ q → read userId (redis w) ≠ Malformed →
  (updateItem userId productId (Some q) w).1 = Fail NotFound
  ↔ available productId w = false ∨ holds_line userId productId w = false.
Proof.
  intros Hne Hq Hr. unfold available, holds_line.
  unfold updateItem, Product.findById.
  destruct (String.eqb_spec productId EmptyString); [done |].
  destruct (Z.ltb_spec q 0); [lia |].
  destruct (products w !! productId) as [p|]; [| now intuition].
  destruct (Product.isActive p); simpl; [| now intuition].
  destruct (read userId (redis w)) as [|items|]; [now intuition | | done].
  pose proof (findIndex_update productId q items) as Hf.
  destruct (findIndex (same_product productId) items) as [i|].
  - destruct Hf as (Hh & _ & _). rewrite Hh.
    destruct (q =? 0); simpl.
    + split; [done | now intros [|]].
    + destruct (Product.stock p <? q); simpl; (split; [done | now intros [|]]).
  - rewrite Hf. now intuition.
Qed.

(** C8, as the code has it.  [updateItem] answers [NotFound] exactly when
    the product is missing or inactive, or the cart does not exist or has
    no line for the product.  Otherwise a quantity of 0 removes the line, a
    quantity above the stock is refused with [InsufficientStock] and leaves
    the stores as they are, and any other quantity becomes the quantity of
    the line, whatever it was before. *)
Theorem updateItem_spec (userId productId : string) (q : Z) (w : world) :
  client (redis w) = Online → productId ≠ EmptyString → 0 ≤ q →
  read userId (redis w) ≠ Malformed →
  ((updateItem userId productId (Some q) w).1 = Fail NotFound
   ↔ available productId w = false ∨ holds_line userId productId w = false)
  ∧ ∀ p items,
      products w !! productId = Some p → Product.isActive p = true →
      read userId (redis w) = Items items → has_line productId items = true →
      if q =? 0 then
        let items' := remove_line productId items in
        updateItem userId productId (Some q) w
        = (Ok (itemCount items'), write userId items' w)
        ∧ read userId (redis (write userId items' w)) = Items items'
        ∧ (NoDup (product <$> items) → line_quantity productId items' = None)
      else if Product.stock p <? q then
        updateItem userId productId (Some q) w = (Fail InsufficientStock, w)
      else
        let items' := set_quantity productId q items in
        updateItem userId productId (Some q) w
        = (Ok (itemCount items'), write userId items' w)
        ∧ read userId (redis (write userId items' w)) = Items items'
        ∧ line_quantity productId items' = Some q.
Proof.
  intros Hc Hne Hq Hr. split; [now apply updateItem_not_found |].
  intros p items Hp Ha Hi Hh.
  rewrite (updateItem_held userId productId q w p items) by done.
  destruct (q =? 0); [| destruct (Product.stock p <? q); [done |]]; simpl.
  - repeat split; [now apply read_write |].
    apply line_quantity_remove_line.
  - repeat split; [now apply read_write |].
    now apply line_quantity_set_quantity.
Qed.

(** The line of two lamps is set to seven, with ten in stock. *)
Lemma updateItem_spec_witness :
  let w := write "u1" [Line "p1" 2] (shop 10) in
  updateItem "u1" "p1" (Some 7) w = (Ok 7, write "u1" [Line "p1" 7] w).
Proof.
  pose proof (updateItem_spec "u1" "p1" 7 (write "u1" [Line "p1" 2] (shop 10)))
    as H.
  destruct H as [_ H];
    [reflexivity | discriminate | lia | vm_compute; discriminate |].
  specialize (H (Product.Make "Desk lamp" 10%float ["lamp.png"] 10 true)
                [Line "p1" 2]).
  destruct H as [H _];
    [vm_compute; reflexivity | reflexivity | vm_compute; reflexivity
    | vm_compute; reflexivity |].
  vm_compute in H. vm_compute. exact H.
Defined.

(** *** Reading the cart *)

Lemma join_find_active ids db l :
  product l ∈ ids → join (find_active ids db) l = live db l.
Proof.
  intros Hin. unfold join, live, find_active.
  destruct (db !! product l) as [p|] eqn:Hp.
  - destruct (Product.isActive p) eqn:Ha.
    + erewrite (proj2 (map_lookup_filter_Some _ _ _ _)); [reflexivity |].
      simpl. done.
    + rewrite (proj2 (map_lookup_filter_None _ _ _)); [reflexivity |].
      right. intros p' Hp' [_ Ha']. simpl in *. congruence.
  - rewrite (proj2 (map_lookup_filter_None _ _ _)); [reflexivity |].
    now left.
Qed.

Lemma omap_join ids db items :
  Forall (λ l, product l ∈ ids) items →
  omap (join (find_active ids db)) items = omap (live db) items.
Proof.
  induction 1 as [|l items Hl H IH]; csimpl; [done |].
  now rewrite join_find_active, IH.
Qed.

Lemma kept_subtotal db items :
  Forall (λ i, vi_subtotal i = (vi_price i * Num.of_Z (vi_quantity i))%float)
    (omap (live db) items).
Proof.
  induction items as [|l items IH]; csimpl; [constructor |].
  unfold live at 1. destruct (db !! product l) as [p|]; [| done].
  destruct (Product.isActive p); [| done]. now constructor.
Qed.

Lemma fold_left_ext_Forall {A B} (f g : B → A → B) (P : A → Prop) l :
  Forall P l → (∀ b a, P a → f b a = g b a) →
  ∀ b, fold_left f l b = fold_left g l b.
Proof.
  intros Hl Hfg. induction Hl as [|a l Ha Hl IH]; intros b; simpl; [done |].
  now rewrite Hfg, IH.
Qed.

Lemma materialize_spec items db :
  let kept := omap (live db) items in
  materialize items db
  = View kept
      (fold_left (λ sum i, sum + vi_price i * Num.of_Z (vi_quantity i))%float
         kept 0%float)
      (fold_left (λ sum i, sum + vi_quantity i) kept 0).
Proof.
  intros kept. unfold materialize. cbv zeta.
  rewrite omap_join.
  - fold kept. f_equal.
    apply (fold_left_ext_Forall _ _ _ _ (kept_subtotal db items)).
    now intros b a ->.
  - apply Forall_forall. intros l Hl. apply list_elem_of_fmap. now exists l.
Qed.

(** C10.  [getCart] answers with the lines of the stored cart whose
    product exists and is active, each joined with the live record of its
    product; the total is the sum of price times quantity and the item
    count the sum of the quantities over these lines; and it leaves every
    store, the stored cart included, as it was. *)
Theorem getCart_spec (userId : string) (w : world) (items : list line) :
  lines (read userId (redis w)) = Some items →
  let kept := omap (live (products w)) items in
  Cart.getCart userId w
  = (Ok (View kept
           (fold_left
              (λ sum i, sum + vi_price i * Num.of_Z (vi_quantity i))%float
              kept 0%float)
           (fold_left (λ sum i, sum + vi_quantity i) kept 0)),
     w).
Proof.
  intros Hl kept. unfold Cart.getCart.
  destruct (read userId (redis w)) as [|items'|]; simpl in Hl; [| | done];
    injection Hl as <-; [reflexivity |].
  destruct items' as [|l items']; [reflexivity |].
  now rewrite materialize_spec.
Qed.

(** The cart of the showroom: the line of the withdrawn chair is left out
    of the answer and stays in the stored cart. *)
Lemma getCart_spec_witness :
  Cart.getCart "u1" showroom
  = (Ok (View [ViewItem "p1" "Desk lamp" 10%float "lamp.png" 2 7 20%float]
           20%float 2),
     showroom)
  ∧ read "u1" (redis showroom) = Items [Line "p1" 2; Line "p2" 1].
Proof.
  split; [| vm_compute; reflexivity].
  pose proof (getCart_spec "u1" showroom [Line "p1" 2; Line "p2" 1]) as H.
  rewrite H; [| vm_compute; reflexivity].
  vm_compute. reflexivity.
Defined.

(** *** The carts a user can reach *)

Lemma addItem_world userId productId quantity w :
  (addItem userId productId quantity w).2 = w
  ∨ ∃ items, lines (read userId (redis w)) = Some items
             ∧ (addItem userId productId quantity w).2
               = write userId (merge productId (default 1 quantity) items) w.
Proof.
  unfold addItem, Product.findById.
  destruct (String.eqb productId EmptyString); [now left |].
  destruct (products w !! productId) as [p|]; [| now left].
  destruct (negb (Product.isActive p)); [now left |].
  destruct (Product.stock p <? default 1 quantity); [now left |].
  destruct (read userId (redis w)) as [|items|] eqn:Hr; [| | now left].
  - right. exists []. done.
  - pose proof (findIndex_merge productId (default 1 quantity) items) as Hf.
    destruct (findIndex (same_product productId) items) as [i|].
    + destruct Hf as (e & He & _ & Hm). rewrite He.
      destruct (Product.stock p <? _); [now left |].
      right. exists items. simpl. now rewrite Hm.
    + destruct Hf as [_ Hm]. right. exists items. simpl. now rewrite Hm.
Qed.

Lemma updateItem_world userId productId quantity w :
  (updateItem userId productId quantity w).2 = w
  ∨ ∃ items, read userId (redis w) = Items items
      ∧ ((updateItem userId productId quantity w).2
         = write userId (remove_line productId items) w
         ∨ ∃ q, 0 < q
             ∧ (updateItem userId productId quantity w).2
               = write userId (set_quantity productId q items) w).
Proof.
  unfold updateItem, Product.findById.
  destruct quantity as [q|]; [| now left].
  destruct (String.eqb productId EmptyString); [now left |].
  destruct (Z.ltb_spec q 0); [now left |].
  destruct (products w !! productId) as [p|]; [| now left].
  destruct (negb (Product.isActive p)); [now left |].
  destruct (read userId (redis w)) as [|items|] eqn:Hr; [now left | | now left].
  pose proof (findIndex_update productId q items) as Hf.
  destruct (findIndex (same_product productId) items) as [i|]; [| now left].
  destruct Hf as (_ & Hd & Hs).
  destruct (Z.eqb_spec q 0); simpl.
  - right. exists items. split; [done |]. left. now rewrite Hd.
  - destruct (Product.stock p <? q); simpl; [now left |].
    right. exists items. split; [done |]. right. exists q.
    split; [lia |]. now rewrite Hs.
Qed.

Lemma removeItem_world userId productId w :
  (removeItem userId productId w).2 = w
  ∨ ∃ items, read userId (redis w) = Items items
      ∧ (removeItem userId productId w).2
        = write userId (remove_line productId items) w.
Proof.
  unfold removeItem.
  destruct (read userId (redis w)) as [|items|] eqn:Hr; [now left | | now left].
  pose proof (findIndex_update productId 0 items) as Hf.
  destruct (findIndex (same_product productId) items) as [i|]; [| now left].
  destruct Hf as (_ & Hd & _). right. exists items. simpl. now rewrite Hd.
Qed.

Lemma clearCart_read userId w :
  read userId (redis (clearCart userId w).2) = Null.
Proof.
  unfold clearCart, RedisService.deleteCart, del. simpl.
  destruct (client (redis w)) eqn:Hc; simpl;
    try (apply read_unreachable; rewrite Hc; discriminate).
  apply read_missing. simpl. apply lookup_delete_eq.
Qed.

Lemma read_elapse userId d r :
  read userId (elapse d r) = read userId r ∨ read userId (elapse d r) = Null.
Proof.
  destruct (decide (client r = Online)) as [Hc|Hc];
    [| right; now apply read_unreachable].
  destruct (db r !! cart_key userId) as [e|] eqn:He.
  - destruct (Redis.age d e) as [e'|] eqn:Ha.
    + left. unfold read, RedisService.getCart.
      rewrite (get_online r _ e Hc He).
      rewrite (get_online (elapse d r) _ e' Hc).
      * unfold Redis.age in Ha.
        destruct (Redis.ttl e); [destruct (_ <=? d); [done |] |];
          now injection Ha as <-.
      * simpl. now rewrite RedisFacts.lookup_elapse, He.
    + right. apply read_missing. simpl.
      now rewrite RedisFacts.lookup_elapse, He.
  - right. apply read_missing. simpl. now apply RedisFacts.elapse_absent.
Qed.

(** A property of carts that the empty cart has and that merging, setting
    a positive quantity and removing a line keep, holds of every cart the
    user reaches. *)
Lemma reachable_cart allowed userId (P : list line → Prop) :
  P [] →
  (∀ productId q items,
     allowed (Add productId q) → P items →
     P (merge productId (default 1 q) items)) →
  (∀ productId q items, 0 < q → P items → P (set_quantity productId q items)) →
  (∀ productId items, P items → P (remove_line productId items)) →
  ∀ w, reachable allowed userId w →
    match read userId (redis w) with
    | Items items => P items
    | Null => True
    | Malformed => False
    end.
Proof.
  intros Hnil Hmerge Hset Hremove w Hw.
  assert (∀ w items',
            match read userId (redis w) with
            | Items items => P items
            | Null => True
            | Malformed => False
            end →
            P items' →
            match read userId (redis (write userId items' w)) with
            | Items items => P items
            | Null => True
            | Malformed => False
            end) as Hwrite.
  { intros w0 items' H0 H'.
    destruct (read_written userId items' w0) as [-> | ->]; done. }
  induction Hw as [w Hr|w rq Hw IH Hrq|w db Hw IH|w d Hw IH].
  - now rewrite Hr.
  - destruct rq as [productId q|productId q|productId|]; cbn [handle].
    + destruct (addItem_world userId productId q w) as [-> | (items & Hl & ->)];
        [done |].
      apply Hwrite; [done |]. apply Hmerge; [done |].
      destruct (read userId (redis w)); simpl in Hl; [| | done];
        now injection Hl as <-.
    + destruct (updateItem_world userId productId q w)
        as [-> | (items & Hr & [-> | (q' & Hq & ->)])]; [done | |];
        (apply Hwrite; [done |]); rewrite Hr in IH; auto.
    + destruct (removeItem_world userId productId w)
        as [-> | (items & Hr & ->)]; [done |].
      apply Hwrite; [done |]. rewrite Hr in IH. auto.
    + now rewrite clearCart_read.
  - exact IH.
  - simpl. destruct (read_elapse userId d (redis w)) as [-> | ->]; done.
Qed.

Lemma reachable_unique userId w :
  reachable (λ _, True) userId w → unique_products (read userId (redis w)).
Proof.
  intros Hw.
  apply (reachable_cart _ userId (λ items, NoDup (product <$> items))) in Hw.
  - exact Hw.
  - apply NoDup_nil_2.
  - intros. now apply unique_merge.
  - intros. now rewrite products_set_quantity.
  - intros. now apply unique_remove_line.
Qed.

Lemma reachable_positive userId w :
  reachable adds_positive userId w →
  positive_quantities (read userId (redis w)).
Proof.
  intros Hw.
  apply (reachable_cart _ userId (Forall (λ l, 0 < quantity l))) in Hw.
  - exact Hw.
  - constructor.
  - intros productId [q|] items Hq H; simpl in *;
      apply positive_merge; (done || lia).
  - intros. now apply positive_set_quantity.
  - intros. now apply positive_remove_line.
Qed.

(** C7, where the code departs from it.  A request to add a quantity of 0
    is accepted, and the cart it stores has a line of quantity 0: the carts
    a user can reach do not all have positive quantities.  (A line of a
    negative quantity is stored in the same way.) *)
Theorem addItem_zero_quantity :
  let w := (addItem "u1" "p1" (Some 0) (shop 5)).2 in
  let w' := (addItem "u1" "p1" (Some (-2)) (shop 5)).2 in
  reachable (λ _, True) "u1" w
  ∧ read "u1" (redis w) = Items [Line "p1" 0]
  ∧ ¬ positive_quantities (read "u1" (redis w))
  ∧ read "u1" (redis w') = Items [Line "p1" (-2)].
Proof.
  intros w w'.
  assert (read "u1" (redis w) = Items [Line "p1" 0]) as Hr
    by (vm_compute; reflexivity).
  split; [| split; [exact Hr | split; [| vm_compute; reflexivity]]].
  - apply (reach_request _ _ (shop 5) (Add "p1" (Some 0))); [| done].
    apply reach_empty. vm_compute. reflexivity.
  - rewrite Hr. simpl. intros H. apply Forall_cons in H as [H _].
    simpl in H. lia.
Qed.

End CartFacts.

(** ** Properties of the order routes *)

Module OrdersFacts.

Import RedisService Orders OrdersSpec Examples.

Lemma with_stock_with_stock p a b :
  Product.with_stock (Product.with_stock p a) b = Product.with_stock p b.
Proof. reflexivity. Qed.

Lemma with_stock_id p : Product.with_stock p (Product.stock p) = p.
Proof. now destruct p. Qed.

Lemma stock_moved_refl db : stock_moved (λ _, 0) db db.
Proof.
  intros id. destruct (db !! id) as [p|]; [| done]. simpl.
  now rewrite Z.add_0_r, with_stock_id.
Qed.

(** One product's stock changes by [q]; then the catalogue moves on. *)
Lemma stock_moved_step db db' id p q moved :
  db !! id = Some p →
  stock_moved moved
    (<[id := Product.with_stock p (Product.stock p + q)]> db) db' →
  stock_moved (λ x, if String.eqb id x then q + moved x else moved x) db db'.
Proof.
  intros Hp H x. rewrite (H x).
  destruct (String.eqb_spec id x) as [<-|Hne].
  - rewrite lookup_insert_eq, Hp. simpl. f_equal.
    unfold Product.with_stock. simpl. f_equal. lia.
  - now rewrite lookup_insert_ne.
Qed.

Lemma stock_moved_ext moved moved' db db' :
  (∀ x, moved x = moved' x) → stock_moved moved db db' →
  stock_moved moved' db db'.
Proof. intros He H x. now rewrite (H x), He. Qed.

(** *** Cancelling *)

Lemma restore_completes items : ∀ db,
  map_Forall (λ _ p, 0 ≤ Product.stock p) db →
  Forall (λ i, 0 ≤ Order.quantity i) items →
  ∃ db', restore items db = (true, db')
         ∧ stock_moved (λ x, returned x items) db db'.
Proof.
  induction items as [|item items IH]; intros db Hdb Hq.
  - exists db. split; [done | apply stock_moved_refl].
  - apply Forall_cons in Hq as [Hq Hqs]. simpl restore.
    unfold Product.findById.
    destruct (db !! Order.product item) as [p|] eqn:Hp.
    + assert (0 ≤ Product.stock p) as Hs by exact (Hdb _ _ Hp).
      unfold Product.save, Product.valid. simpl.
      destruct (Z.leb_spec 0 (Product.stock p + Order.quantity item)); [| lia].
      destruct (IH (<[Order.product item :=
                        Product.with_stock p
                          (Product.stock p + Order.quantity item)]> db))
        as (db' & Hr & Hm); [| done |].
      { apply map_Forall_insert_2; [simpl; lia | done]. }
      exists db'. split; [done |].
      apply (stock_moved_step _ _ _ _ _ _ Hp) in Hm.
      eapply stock_moved_ext; [| exact Hm].
      intros x. simpl. reflexivity.
    + destruct (IH db Hdb Hqs) as (db' & Hr & Hm).
      exists db'. split; [done |].
      intros x. rewrite (Hm x). simpl.
      destruct (String.eqb_spec (Order.product item) x) as [<-|]; [| done].
      now rewrite Hp.
Qed.

(** C5.  Cancelling an order of the requesting user is refused with
    [InvalidState], and changes no store, iff its status is [shipped],
    [delivered] or [cancelled].  Otherwise it succeeds: every product gets
    back the quantities of the order's lines, and the order is stored with
    the status [cancelled] and the time of the cancellation. *)
Theorem cancel_spec (userId : string) (id : nat) (reason : option string)
  (now : Z) (w : world) (order : Order.t) :
  orders w !! id = Some order → Order.user order = userId →
  map_Forall (λ _ p, 0 ≤ Product.stock p) (products w) →
  Forall (λ i, 0 ≤ Order.quantity i) (Order.items order) →
  if decide (Order.orderStatus order ∈ ["shipped"; "delivered"; "cancelled"])
  then cancel userId id reason now w = (Fail InvalidState, w)
  else
    ∃ db',
      let order' := Order.cancelled order now reason in
      cancel userId id reason now w
      = (Ok order',
         World (redis w) db' (<[id := order']> (orders w)) (graph w))
      ∧ Order.orderStatus order' = "cancelled"
      ∧ Order.cancelledAt order' = Some now
      ∧ Order.items order' = Order.items order
      ∧ stock_moved (λ x, returned x (Order.items order)) (products w) db'.
Proof.
  intros Ho Hu Hdb Hq. unfold cancel, Order.findById. rewrite Ho, Hu.
  rewrite String.eqb_refl. simpl. unfold cannot_cancel.
  destruct (decide _) as [Hin|Hnin].
  - now rewrite bool_decide_eq_true_2.
  - rewrite bool_decide_eq_false_2 by done.
    destruct (restore_completes _ _ Hdb Hq) as (db' & Hr & Hm).
    exists db'. rewrite Hr. done.
Qed.

(** The pending order of the warehouse is cancelled: two lamps and three
    mugs go back into stock. *)
Lemma cancel_spec_witness :
  ∃ order' w',
    cancel "u1" 0 None 1700000000 (warehouse "pending") = (Ok order', w')
    ∧ Order.orderStatus order' = "cancelled"
    ∧ Product.stock <$> products w' !! "p1" = Some 10
    ∧ Product.stock <$> products w' !! "p2" = Some 3.
Proof.
  pose proof (cancel_spec "u1" 0 None 1700000000 (warehouse "pending")
                _ eq_refl eq_refl) as H.
  destruct (decide _) as [Hin|_] in H.
  { exfalso. clear H. simpl in Hin.
    repeat (apply elem_of_cons in Hin as [Hin|Hin]; [discriminate |]).
    now apply elem_of_nil in Hin. }
  destruct H as (db' & Hc & Hs & _ & _ & Hm).
  - apply map_Forall_insert_2; [simpl; lia |].
    apply map_Forall_insert_2; [simpl; lia |]. apply map_Forall_empty.
  - repeat constructor; simpl; lia.
  - eexists _, _. split; [exact Hc |]. split; [exact Hs |].
    simpl. rewrite (Hm "p1"), (Hm "p2"). vm_compute. done.
Defined.

(** *** Placing an order *)

Lemma stock_moved_one db id p q :
  db !! id = Some p →
  stock_moved (λ x, if String.eqb id x then q else 0) db
    (<[id := Product.with_stock p (Product.stock p + q)]> db).
Proof.
  intros Hp.
  apply (stock_moved_ext (λ x, if String.eqb id x then q + 0 else 0)).
  - intros x. destruct (String.eqb id x); lia.
  - apply (stock_moved_step db _ id p q (λ _, 0) Hp), stock_moved_refl.
Qed.

Lemma snapshot_of_moved moved db db' item line :
  stock_moved moved db db' → snapshot_of db' item line → snapshot_of db item line.
Proof.
  intros Hm (p' & Hp' & ->). rewrite (Hm (product item)) in Hp'.
  destruct (db !! product item) as [p|] eqn:Hp; simpl in Hp'; [| done].
  injection Hp' as <-. now exists p.
Qed.

Lemma products_track userId productId now w :
  products (track userId productId now w) = products w.
Proof. unfold track. now destruct (Neo4j.createUserInteraction _ _ _ _ _). Qed.

Lemma orders_track userId productId now w :
  orders (track userId productId now w) = orders w.
Proof. unfold track. now destruct (Neo4j.createUserInteraction _ _ _ _ _). Qed.

Lemma redis_track userId productId now w :
  redis (track userId productId now w) = redis w.
Proof. unfold track. now destruct (Neo4j.createUserInteraction _ _ _ _ _). Qed.

Lemma process_completes items : ∀ userId now subtotal lines w subtotal' lines' w',
  process userId now items subtotal lines w = (inr (subtotal', lines'), w') →
  ∃ new,
    lines' = lines ++ new
    ∧ Forall2 (snapshot_of (products w)) items new
    ∧ subtotal'
      = fold_left
          (λ sum l, sum + Order.price l * Num.of_Z (Order.quantity l))%float
          new subtotal
    ∧ stock_moved (λ x, - ordered x items) (products w) (products w')
    ∧ orders w' = orders w ∧ redis w' = redis w.
Proof.
  induction items as [|item items IH];
    intros userId now subtotal lines w subtotal' lines' w' H.
  - injection H as <- <- <-. exists []. rewrite app_nil_r.
    repeat split; [constructor | apply stock_moved_refl].
  - simpl process in H. unfold Product.findById in H.
    destruct (products w !! product item) as [p|] eqn:Hp; [| done].
    destruct (Z.ltb_spec (Product.stock p) (quantity item)); [done |].
    unfold Product.save, Product.valid in H. simpl in H.
    destruct (Z.leb_spec 0 (Product.stock p - quantity item)); [| lia].
    apply IH in H as (new & -> & Hsnap & -> & Hm & Ho & Hr).
    assert (stock_moved (λ x, if String.eqb (product item) x
                              then - quantity item else 0)
              (products w)
              (<[product item :=
                   Product.with_stock p (Product.stock p - quantity item)]>
                 (products w))) as Hone.
    { apply (stock_moved_one _ _ _ (- quantity item) Hp). }
    exists (Order.Item (product item) (quantity item) (Product.price p)
              (Product.name p) (Product.image p) :: new).
    split; [now rewrite <- List.app_assoc |].
    split; [| split; [done |]].
    { constructor; [now exists p |].
      eapply Forall2_impl; [exact Hsnap |].
      intros rq l Hs. eapply snapshot_of_moved; [exact Hone |].
      now rewrite products_track in Hs. }
    split; [| now rewrite Ho, Hr, orders_track, redis_track].
    rewrite products_track in Hm. simpl in Hm.
    replace (Product.stock p - quantity item)
      with (Product.stock p + - quantity item) in Hm by lia.
    apply (stock_moved_step _ _ _ _ _ _ Hp) in Hm.
    eapply stock_moved_ext; [| exact Hm].
    intros x. simpl. destruct (String.eqb (product item) x); lia.
Qed.

Lemma process_fails items : ∀ userId now subtotal lines w e w',
  process userId now items subtotal lines w = (inl e, w') →
  (e = NotFound ∨ e = InsufficientStock)
  ∧ orders w' = orders w ∧ redis w' = redis w.
Proof.
  induction items as [|item items IH];
    intros userId now subtotal lines w e w' H; [done |].
  simpl process in H. unfold Product.findById in H.
  destruct (products w !! product item) as [p|] eqn:Hp;
    [| injection H as <- <-; auto].
  destruct (Z.ltb_spec (Product.stock p) (quantity item));
    [injection H as <- <-; auto |].
  unfold Product.save, Product.valid in H. simpl in H.
  destruct (Z.leb_spec 0 (Product.stock p - quantity item)); [| lia].
  apply IH in H as (He & Ho & Hr).
  now rewrite Ho, Hr, orders_track, redis_track.
Qed.

(** A request that fails persists no order and leaves the cart alone. *)
Lemma createOrder_failure userId items shippingAddress paymentMethod now w e w' :
  createOrder userId items shippingAddress paymentMethod now w = (Fail e, w') →
  orders w' = orders w ∧ redis w' = redis w.
Proof.
  unfold createOrder. destruct items as [|item items]; [now intros [= <- <-] |].
  destruct (process _ _ _ _ _ _) as [[e'|[subtotal lines]] w1] eqn:Hp; [| done].
  intros [= <- <-]. now apply process_fails in Hp.
Qed.

(** The order of 10.00 x 2 and 5.00 x 3: the tax is the binary64 product
    of 35 and 0.08, which is not the binary64 number 2.8. *)
Lemma createOrder_example_tax :
  ∃ order w',
    createOrder "u1" two_lamps_three_mugs "1 Main St" "card" 1700000000 bazaar
    = (Ok order, w')
    ∧ Order.subtotal order = 35%float
    ∧ Order.tax order ≠ 2.8%float.
Proof.
  eexists _, _. split; [vm_compute; reflexivity |].
  split; [reflexivity |]. simpl. intros H.
  apply (f_equal (PrimFloat.eqb 2.8%float)) in H. vm_compute in H. done.
Qed.

(** C6, as the code has it.  An order that is created holds, for each
    requested line, the quantity asked for at the price the product has at
    that time; its subtotal is the sum of price times quantity over the
    lines, its tax the subtotal times 0.08, its shipping cost 0 above 100
    and 10 otherwise, its total the sum of the three, all in binary64
    arithmetic; and every product's stock goes down by the quantity
    ordered.  For 10.00 x 2 and 5.00 x 3 this gives a subtotal of 35, a tax
    of 2.8000000000000003, a shipping cost of 10 and a total of 47.8. *)
Theorem createOrder_spec (userId : string) (items : list request_item)
  (shippingAddress paymentMethod : string) (now : Z) (w w' : world)
  (order : Order.t) :
  createOrder userId items shippingAddress paymentMethod now w = (Ok order, w') →
  (Forall2 (snapshot_of (products w)) items (Order.items order)
   ∧ Order.subtotal order = sum_lines (Order.items order)
   ∧ Order.tax order = (Order.subtotal order * 0.08)%float
   ∧ Order.shippingCost order
     = (if (100 <? Order.subtotal order)%float then 0%float else 10%float)
   ∧ Order.total order
     = (Order.subtotal order + Order.tax order + Order.shippingCost order)%float
   ∧ stock_moved (λ x, - ordered x items) (products w) (products w'))
  ∧ ∃ o wo,
      createOrder "u1" two_lamps_three_mugs "1 Main St" "card" now bazaar
      = (Ok o, wo)
      ∧ Order.subtotal o = 35%float
      ∧ Order.tax o = 2.8000000000000003%float
      ∧ Order.shippingCost o = 10%float
      ∧ Order.total o = 47.8%float
      ∧ Product.stock <$> products bazaar !! "p1" = Some 8
      ∧ Product.stock <$> products wo !! "p1" = Some 6
      ∧ Product.stock <$> products bazaar !! "p2" = Some 3
      ∧ Product.stock <$> products wo !! "p2" = Some 0.
Proof.
  intros H. split.
  - unfold createOrder in H. destruct items as [|item items]; [done |].
    destruct (process _ _ _ _ _ _) as [[e|[subtotal lines]] w1] eqn:Hp; [done |].
    simpl in H. injection H as <- <-.
    apply process_completes in Hp as (new & -> & Hsnap & -> & Hm & _ & _).
    simpl. repeat split; done.
  - eexists _, _. split; [vm_compute; reflexivity |]. vm_compute.
    repeat split.
Qed.

(** The order of two lamps and three mugs in the bazaar. *)
Lemma createOrder_spec_witness :
  ∃ order w',
    createOrder "u1" two_lamps_three_mugs "1 Main St" "card" 1700000000 bazaar
    = (Ok order, w')
    ∧ Order.tax order = (Order.subtotal order * 0.08)%float
    ∧ Order.total order = 47.8%float.
Proof.
  destruct (createOrder "u1" two_lamps_three_mugs "1 Main St" "card"
              1700000000 bazaar) as [[order|e] w'] eqn:E;
    [| vm_compute in E; discriminate].
  exists order, w'. split; [reflexivity |].
  destruct (createOrder_spec _ _ _ _ _ _ _ _ E) as [(_ & _ & Ht & _) _].
  split; [exact Ht |].
  vm_compute in E. injection E as <- _. reflexivity.
Defined.

(** C1, where the code departs from it.  The second line of the request
    names a product that does not exist: the order is refused with
    [NotFound], no order is stored and the cart stays, but the stock of the
    first line's product has gone down and its purchase is in the graph. *)
Theorem createOrder_partial_failure :
  let request := [RequestItem "p1" 2; RequestItem "p9" 1] in
  let result :=
    createOrder "u1" request "1 Main St" "card" 1700000000 bazaar in
  result.1 = Fail NotFound
  ∧ Product.stock <$> products bazaar !! "p1" = Some 8
  ∧ Product.stock <$> products result.2 !! "p1" = Some 6
  ∧ Neo4j.edges (graph bazaar) = []
  ∧ Neo4j.edges (graph result.2)
    = [Neo4j.Edge "u1" "p1" "PURCHASED" 1700000000]
  ∧ orders result.2 = orders bazaar
  ∧ redis result.2 = redis bazaar.
Proof. vm_compute. repeat split. Qed.

(** The same with a second line that asks for more than is in stock. *)
Lemma createOrder_partial_failure_stock :
  let request := [RequestItem "p1" 2; RequestItem "p2" 4] in
  let result :=
    createOrder "u1" request "1 Main St" "card" 1700000000 bazaar in
  result.1 = Fail InsufficientStock
  ∧ Product.stock <$> products result.2 !! "p1" = Some 6.
Proof. vm_compute. repeat split. Qed.

(** When the first line fails, nothing has changed. *)
Lemma createOrder_first_line_fails userId item items shippingAddress
  paymentMethod now w :
  match products w !! product item with
  | Some p => Product.stock p < quantity item
  | None => True
  end →
  ∃ e, createOrder userId (item :: items) shippingAddress paymentMethod now w
       = (Fail e, w).
Proof.
  intros H. unfold createOrder. simpl. unfold Product.findById.
  destruct (products w !! product item) as [p|]; [| now exists NotFound].
  destruct (Z.ltb_spec (Product.stock p) (quantity item)); [| lia].
  now exists InsufficientStock.
Qed.

(** *** Doing it again *)




End OrdersFacts.

(** ** The keys of the search cache *)

Module Base64Facts.

Import Str StrFacts Base64.







End Base64Facts.

(** ** The wrappers of the cache service *)

Module CacheFacts.

Import Str StrFacts JSON JSONFacts RedisService RedisServiceFacts.
Import Cache SearchCache CacheSpec Examples.

Lemma get_frame r r' key :
  client r' = client r → db r' !! key = db r !! key → get key r' = get key r.
Proof.
  intros Hc Hk. unfold get, Redis.get. now rewrite Hc, Hk.
Qed.

Lemma exists_frame r r' key :
  client r' = client r → db r' !! key = db r !! key →
  exists_ key r' = exists_ key r.
Proof.
  intros Hc Hk. unfold exists_, Redis.exists_. now rewrite Hc, Hk.
Qed.





(** X1.  Deleting a key: the call succeeds whether or not the key was
    there, the key then reads as [null] and does not exist, every other
    key reads as before, and deleting once more changes nothing. *)
Theorem del_then_read (r : t) (key : string) :
  client r = Online →
  (del key r).1 = true
  ∧ get key (del key r).2 = JNull
  ∧ exists_ key (del key r).2 = false
  ∧ (∀ key', key' ≠ key →
       get key' (del key r).2 = get key' r
       ∧ exists_ key' (del key r).2 = exists_ key' r)
  ∧ del key (del key r).2 = (true, (del key r).2).
Proof.
  intros Hc.
  assert (del key r = (true, with_db r (delete key (db r)))) as Hd.
  { unfold del, Redis.del. now rewrite Hc. }
  rewrite Hd. simpl. repeat split.
  - apply get_missing. simpl. apply lookup_delete_eq.
  - unfold exists_, Redis.exists_. simpl. rewrite Hc. simpl.
    now rewrite lookup_delete_eq.
  - apply get_frame; [done |]. simpl. now apply lookup_delete_ne.
  - apply exists_frame; [done |]. simpl. now apply lookup_delete_ne.
  - unfold del, Redis.del. simpl. rewrite Hc. unfold with_db. simpl.
    now rewrite delete_delete_eq.
Qed.

Lemma del_then_read_witness :
  let r := (set "product:42" cached_product 1800 (Make Online ∅)).2 in
  get "product:42" r = cached_product
  ∧ get "product:42" (del "product:42" r).2 = JNull.
Proof.
  split; [vm_compute; reflexivity |].
  apply (del_then_read
           (set "product:42" cached_product 1800 (Make Online ∅)).2
           "product:42" eq_refl).
Defined.



(** *** Name spaces *)






(** *** Clearing the cache *)

Lemma lookup_del_keys ks (db : gmap string Redis.entry) key :
  del_keys ks db !! key = if decide (key ∈ ks) then None else db !! key.
Proof.
  induction ks as [|k ks IH].
  - destruct (decide (key ∈ [])) as [H|_]; [| done].
    now apply elem_of_nil in H.
  - change (del_keys (k :: ks) db) with (delete k (del_keys ks db)).
    destruct (decide (key ∈ k :: ks)) as [Hin|Hnin].
    + destruct (decide (k = key)) as [->|Hne]; [apply lookup_delete_eq |].
      rewrite lookup_delete_ne, IH by done.
      apply elem_of_cons in Hin as [->|Hin]; [done |].
      destruct (decide (key ∈ ks)); done.
    + apply not_elem_of_cons in Hnin as [Hne Hnin].
      rewrite lookup_delete_ne, IH by done.
      destruct (decide (key ∈ ks)); done.
Qed.

Lemma del_keys_all (db : gmap string Redis.entry) : del_keys (keys db) db = ∅.
Proof.
  apply map_eq. intros key. rewrite lookup_del_keys, lookup_empty.
  destruct (decide (key ∈ keys db)) as [_|Hnin]; [done |].
  destruct (db !! key) as [e|] eqn:He; [| done].
  exfalso. apply Hnin. unfold keys. apply list_elem_of_fmap.
  exists (key, e). split; [done |]. now apply elem_of_map_to_list.
Qed.

Lemma clearAllCache_online r :
  client r = Online → clearAllCache r = (true, with_db r ∅).
Proof.
  intros Hc. unfold clearAllCache. rewrite Hc.
  destruct (Z.ltb_spec 0 (Z.of_nat (length (keys (db r))))) as [_|Hlen].
  - now rewrite del_keys_all.
  - f_equal. destruct r as [c d]. unfold with_db. simpl in *. f_equal.
    assert (keys d = []) as Hk by (destruct (keys d); simpl in *; [done | lia]).
    unfold keys in Hk. apply fmap_nil_inv in Hk.
    now apply map_to_list_empty_iff in Hk.
Qed.

(** X4.  Clearing the cache empties the key space: afterwards every key
    reads as [null], no user has a cart, and every rate-limit counter
    starts again, so the next call for any key is allowed.  Without a
    reachable server nothing is cleared and the answer is [false]. *)
Theorem clearAllCache_wipes (r : t) :
  (client r = Online →
   (clearAllCache r).1 = true
   ∧ db (clearAllCache r).2 = ∅
   ∧ (∀ key, get key (clearAllCache r).2 = JNull
             ∧ exists_ key (clearAllCache r).2 = false)
   ∧ (∀ userId, Cart.read userId (clearAllCache r).2 = Cart.Null)
   ∧ (∀ key limit w, 1 ≤ limit → 0 < w →
        (checkRateLimit key limit w (clearAllCache r).2).1 = true))
  ∧ (client r ≠ Online → clearAllCache r = (false, r)).
Proof.
  split.
  - intros Hc. rewrite clearAllCache_online by done. simpl.
    repeat split.
    + now apply get_missing.
    + unfold exists_, Redis.exists_. simpl. now rewrite Hc, lookup_empty.
    + intros userId. now apply CartFacts.read_missing.
    + intros key limit w Hl Hw.
      rewrite checkRateLimit_first by done. simpl.
      destruct (Z.leb_spec 1 limit); [done | lia].
  - intros Hc. unfold clearAllCache. now destruct (client r).
Qed.

Lemma clearAllCache_wipes_witness :
  Cart.read "u1" (redis bazaar) = Cart.Items [Cart.Line "p1" 2; Cart.Line "p2" 3]
  ∧ Cart.read "u1" (clearAllCache (redis bazaar)).2 = Cart.Null.
Proof.
  split; [vm_compute; reflexivity |].
  destruct (clearAllCache_wipes (redis bazaar)) as [H _].
  destruct H as (_ & _ & _ & H & _); [reflexivity |]. apply H.
Defined.

(** *** The window of the rate limiter *)

Lemma burst_app key limit w l1 : ∀ l2 r,
  burst key limit w (l1 ++ l2) r
  = let '(b1, r1) := burst key limit w l1 r in
    let '(b2, r2) := burst key limit w l2 r1 in
    (b1 ++ b2, r2).
Proof.
  induction l1 as [|d l1 IH]; intros l2 r; simpl.
  - now destruct (burst key limit w l2 r).
  - destruct (checkRateLimit key limit w (elapse d r)) as [b r1].
    rewrite IH. destruct (burst key limit w l1 r1) as [b1 r2].
    now destruct (burst key limit w l2 r2).
Qed.

Lemma sum_nonneg pauses : Forall (λ d, 0 ≤ d) pauses → 0 ≤ foldr Z.add 0 pauses.
Proof. induction 1; simpl; lia. Qed.

(** The counter while the window is open: it has counted every call, and
    its time to live only runs down. *)
Lemma burst_running_state key limit w pauses : ∀ r n t,
  client r = Online → db r !! key = Some (Redis.Entry (print_Z n) (Some t)) →
  0 < n → 0 < w → Forall (λ d, 0 ≤ d) pauses → foldr Z.add 0 pauses < t →
  client (burst key limit w pauses r).2 = Online
  ∧ db (burst key limit w pauses r).2 !! key
    = Some (Redis.Entry (print_Z (n + Z.of_nat (length pauses)))
              (Some (t - foldr Z.add 0 pauses))).
Proof.
  induction pauses as [|d rest IH]; intros r n t Hc Hk Hn Hw Hp Hsum.
  - simpl. rewrite Z.add_0_r, Z.sub_0_r. done.
  - apply Forall_cons in Hp as [Hd Hp]. simpl in Hsum.
    pose proof (sum_nonneg rest Hp) as Hrest.
    simpl burst.
    assert (db (elapse d r) !! key
            = Some (Redis.Entry (print_Z n) (Some (t - d)))) as Hk'.
    { simpl. rewrite RedisFacts.lookup_elapse, Hk. simpl. unfold Redis.age.
      simpl. destruct (Z.leb_spec t d); [lia | reflexivity]. }
    rewrite (checkRateLimit_next _ _ _ _ n (Some (t - d))) by done.
    destruct (Z.eqb_spec (n + 1) 1); [lia |].
    destruct (burst _ _ _ rest _) as [more r2] eqn:E. simpl.
    change r2 with (more, r2).2. rewrite <- E.
    destruct (IH (with_db (elapse d r)
                    (<[key := Redis.Entry (print_Z (n + 1)) (Some (t - d))]>
                       (db (elapse d r))))
                (n + 1) (t - d)) as [Hc2 Hk2]; try done; try lia.
    { simpl. now rewrite lookup_insert_eq. }
    split; [done |]. rewrite Hk2. do 3 f_equal; simpl; lia.
Qed.

(** A burst whose first call finds no counter, be it that the key was never
    used or that its window has closed. *)
Lemma burst_new_window key limit w d pauses r :
  client r = Online → db (elapse d r) !! key = None → 0 < w →
  Forall (λ d, 0 ≤ d) pauses → foldr Z.add 0 pauses < w →
  (burst key limit w (d :: pauses) r).1
  = imap (λ i _, Z.of_nat i + 1 <=? limit) (d :: pauses)
  ∧ client (burst key limit w (d :: pauses) r).2 = Online
  ∧ db (burst key limit w (d :: pauses) r).2 !! key
    = Some (Redis.Entry (print_Z (1 + Z.of_nat (length pauses)))
              (Some (w - foldr Z.add 0 pauses))).
Proof.
  intros Hc Hk Hw Hp Hsum. simpl burst.
  rewrite checkRateLimit_first by done.
  destruct (burst _ _ _ pauses _) as [more r2] eqn:E. simpl.
  change more with (more, r2).1. change r2 with (more, r2).2 at 2 3.
  rewrite <- E. split.
  - f_equal. rewrite (burst_running _ _ _ _ _ 1 w); try done.
    + apply imap_ext. intros i x _. simpl. f_equal. lia.
    + simpl. now rewrite lookup_insert_eq.
  - apply burst_running_state; try done; try lia.
    simpl. now rewrite lookup_insert_eq.
Qed.

Lemma imap_all_allowed (l : list Z) (limit : Z) :
  Z.of_nat (length l) ≤ limit →
  imap (λ i _, Z.of_nat i + 1 <=? limit) l = replicate (length l) true.
Proof.
  intros Hlen. apply list_eq. intros i. rewrite list_lookup_imap.
  destruct (decide (i < length l)%nat) as [Hi|Hi].
  - destruct (lookup_lt_is_Some_2 l i Hi) as [x ->]. simpl.
    rewrite lookup_replicate_2 by done.
    destruct (Z.leb_spec (Z.of_nat i + 1) limit); [done | lia].
  - rewrite (lookup_ge_None_2 l i) by lia. simpl. symmetry.
    apply lookup_replicate_None. lia.
Qed.

(** X5.  The window is fixed: it opens with the first call for a key and
    closes [w] seconds later, however many calls come in between (the
    calls that are refused count too, and none of them moves the end of
    the window).  The first call after that is counted as 1 again.  So
    [limit] calls at the end of one window and [limit] more right after it
    are all allowed. *)
Theorem checkRateLimit_next_window (r : t) (key : string) (limit w : Z)
  (d p : Z) (pauses pauses' : list Z) :
  client r = Online → db r !! key = None → 0 < w →
  Forall (λ d, 0 ≤ d) pauses → foldr Z.add 0 pauses < w →
  w ≤ foldr Z.add 0 pauses + p →
  Forall (λ d, 0 ≤ d) pauses' → foldr Z.add 0 pauses' < w →
  (burst key limit w ((d :: pauses) ++ p :: pauses') r).1
  = imap (λ i _, Z.of_nat i + 1 <=? limit) (d :: pauses)
    ++ imap (λ i _, Z.of_nat i + 1 <=? limit) (p :: pauses')
  ∧ (Z.of_nat (length (d :: pauses)) = limit →
     Z.of_nat (length (p :: pauses')) = limit →
     (burst key limit w ((d :: pauses) ++ p :: pauses') r).1
     = replicate (2 * Z.to_nat limit) true).
Proof.
  intros Hc Hk Hw Hp Hs Hlapse Hp' Hs'.
  assert ((burst key limit w ((d :: pauses) ++ p :: pauses') r).1
          = imap (λ i _, Z.of_nat i + 1 <=? limit) (d :: pauses)
            ++ imap (λ i _, Z.of_nat i + 1 <=? limit) (p :: pauses')) as Hb.
  { rewrite burst_app.
    destruct (burst_new_window key limit w d pauses r) as (H1 & Hc1 & Hk1);
      [done | simpl; now apply RedisFacts.elapse_absent | done | done | done |].
    destruct (burst key limit w (d :: pauses) r) as [b1 r1].
    simpl in H1, Hc1, Hk1.
    destruct (burst_new_window key limit w p pauses' r1) as (H2 & _);
      [done | | done | done | done |].
    { simpl. rewrite RedisFacts.lookup_elapse, Hk1. simpl. unfold Redis.age.
      simpl. destruct (Z.leb_spec (w - foldr Z.add 0 pauses) p); [done | lia]. }
    destruct (burst key limit w (p :: pauses') r1) as [b2 r2].
    simpl in H2. simpl. now rewrite H1, H2. }
  split; [exact Hb |]. intros Hl1 Hl2. rewrite Hb.
  rewrite !imap_all_allowed by lia.
  rewrite <- replicate_add. f_equal. lia.
Qed.

Lemma checkRateLimit_next_window_witness :
  (burst "203.0.113.7" 2 60 ([0; 1] ++ [59; 1]) (Make Online ∅)).1
  = [true; true; true; true].
Proof.
  destruct (checkRateLimit_next_window (Make Online ∅) "203.0.113.7" 2 60
              0 59 [1] [1]) as [_ H];
    [reflexivity | reflexivity | lia | repeat constructor; lia | simpl; lia
    | simpl; lia | repeat constructor; lia | simpl; lia |].
  apply H; reflexivity.
Defined.

End CacheFacts.

(** ** More of the cart routes *)

Module CartMoreFacts.

Import Str JSON JSONFacts RedisService RedisServiceFacts Cart CartSpec.
Import CartFacts CacheFacts CartCount Examples.

(** *** What is stored, and for how long *)

Lemma decode_items j items :
  decode j = Items items →
  ∃ kvs xs, j = JObj kvs ∧ obj_get "items" kvs = Some (JArr xs)
            ∧ mapM line_of_json xs = Some items.
Proof.
  unfold decode, of_json. destruct j as [| | | | |kvs]; try done.
  destruct (obj_get "items" kvs) as [[| | | |xs|]|] eqn:E; try done.
  destruct (mapM line_of_json xs) as [items'|] eqn:M; [| done].
  intros [= <-]. now exists kvs, xs.
Qed.

Lemma decode_null j : decode j = Null → j = JNull.
Proof.
  unfold decode. destruct j; try done; now destruct (of_json _).
Qed.

Lemma itemCount_from items : ∀ a,
  fold_left (λ sum item, sum + quantity item) items a = a + itemCount items.
Proof.
  unfold itemCount. induction items as [|l items IH]; intros a; simpl; [lia |].
  rewrite IH, (IH (0 + quantity l)). lia.
Qed.

Lemma itemCount_cons l items :
  itemCount (l :: items) = quantity l + itemCount items.
Proof. unfold itemCount at 1. simpl. now rewrite itemCount_from. Qed.

Lemma quantity_step_line x l :
  line_of_json x = Some l → quantity_step x = Plus (quantity l).
Proof.
  unfold line_of_json, quantity_step. destruct x as [| | | | |kvs]; try done.
  destruct (obj_get "product" kvs) as [[| | |p| |]|]; try done.
  destruct (obj_get "quantity" kvs) as [[| |q| | |]|]; try done.
  now intros [= <-].
Qed.

Lemma reduce_lines xs items :
  mapM line_of_json xs = Some items →
  ∀ a, reduce xs (Some a) = Some (Some (a + itemCount items)).
Proof.
  intros H. apply mapM_Some in H.
  induction H as [|x l xs items Hx H IH]; intros a; simpl.
  - unfold itemCount. simpl. do 2 f_equal. lia.
  - rewrite (quantity_step_line _ _ Hx). simpl. rewrite IH, itemCount_cons.
    do 2 f_equal. lia.
Qed.

Lemma count_items userId w items :
  read userId (redis w) = Items items →
  count userId w = (Ok (Some (itemCount items)), w).
Proof.
  intros H. apply decode_items in H as (kvs & xs & Hj & Hi & Hm).
  unfold count. rewrite Hj. simpl. rewrite Hi. simpl.
  now rewrite (reduce_lines _ _ Hm).
Qed.

Lemma count_null userId w :
  read userId (redis w) = Null → count userId w = (Ok (Some 0), w).
Proof.
  intros H. apply decode_null in H. unfold count. now rewrite H.
Qed.

Lemma count_lines userId w items :
  lines (read userId (redis w)) = Some items →
  count userId w = (Ok (Some (itemCount items)), w).
Proof.
  destruct (read userId (redis w)) as [|items'|] eqn:Hr; simpl; [| | done];
    intros [= <-].
  - now apply count_null.
  - now apply count_items.
Qed.





(** *** A change of the cart *)

Lemma addItem_ok userId productId q w n :
  (addItem userId productId q w).1 = Ok n →
  ∃ items', addItem userId productId q w
            = (Ok (itemCount items'), write userId items' w)
            ∧ n = itemCount items'.
Proof.
  unfold addItem.
  destruct (String.eqb productId EmptyString); [done |].
  destruct (Product.findById productId (products w)) as [p|]; [| done].
  destruct (negb (Product.isActive p)); [done |].
  destruct (Product.stock p <? default 1 q); [done |].
  destruct (read userId (redis w)) as [|items|]; [| | done].
  - simpl. intros [= <-]. now eexists.
  - destruct (findIndex (same_product productId) items) as [i|].
    + destruct (items !! i) as [e|]; [| done].
      destruct (Product.stock p <? _); [done |].
      simpl. intros [= <-]. now eexists.
    + simpl. intros [= <-]. now eexists.
Qed.

Lemma updateItem_ok userId productId q w n :
  (updateItem userId productId q w).1 = Ok n →
  ∃ items', updateItem userId productId q w
            = (Ok (itemCount items'), write userId items' w)
            ∧ n = itemCount items'.
Proof.
  unfold updateItem. destruct q as [q|]; [| done].
  destruct (String.eqb productId EmptyString); [done |].
  destruct (q <? 0); [done |].
  destruct (Product.findById productId (products w)) as [p|]; [| done].
  destruct (negb (Product.isActive p)); [done |].
  destruct (read userId (redis w)) as [|items|]; [done | | done].
  destruct (findIndex (same_product productId) items) as [i|]; [| done].
  destruct (q =? 0).
  - simpl. intros [= <-]. now eexists.
  - destruct (Product.stock p <? q); [done |].
    simpl. intros [= <-]. now eexists.
Qed.

Lemma removeItem_ok userId productId w n :
  (removeItem userId productId w).1 = Ok n →
  ∃ items', removeItem userId productId w
            = (Ok (itemCount items'), write userId items' w)
            ∧ n = itemCount items'.
Proof.
  unfold removeItem.
  destruct (read userId (redis w)) as [|items|]; [done | | done].
  destruct (findIndex (same_product productId) items) as [i|]; [| done].
  simpl. intros [= <-]. now eexists.
Qed.

Lemma read_write_elapse userId items w d :
  client (redis w) = Online → 0 ≤ d →
  read userId (elapse d (redis (write userId items w)))
  = if d <? 86400 then Items items else Null.
Proof.
  intros Hc Hd. rewrite write_online by done. simpl redis.
  destruct (Z.ltb_spec d 86400).
  - unfold read, RedisService.getCart.
    rewrite (get_stringify _ _ (to_json items) (Some (86400 - d)));
      [apply decode_to_json | done | apply to_json_wf |].
    simpl. rewrite RedisFacts.lookup_elapse, lookup_insert_eq. simpl.
    unfold Redis.age. simpl. destruct (Z.leb_spec 86400 d); [lia | done].
  - apply read_missing. simpl.
    rewrite RedisFacts.lookup_elapse, lookup_insert_eq. simpl.
    unfold Redis.age. simpl. destruct (Z.leb_spec 86400 d); [done | lia].
Qed.

(** X7.  A request to add, update or remove that answers with an item
    count has stored a cart with that count, and the cart then lives for
    24 hours from this change, however old it was: for less than 86400
    seconds it is read back, and the count route answers with the same
    count; after that there is no cart, and the count is 0. *)
Theorem cart_change_lasts_a_day (userId productId : string) (q : option Z)
  (w : world) (result : response Z * world) (n : Z) :
  client (redis w) = Online →
  result ∈ [addItem userId productId q w; updateItem userId productId q w;
            removeItem userId productId w] →
  result.1 = Ok n →
  ∃ items',
    result.2 = write userId items' w ∧ itemCount items' = n
    ∧ ∀ d, 0 ≤ d →
        let later := with_redis result.2 (elapse d (redis result.2)) in
        read userId (redis later)
        = (if d <? 86400 then Items items' else Null)
        ∧ (count userId later).1 = Ok (Some (if d <? 86400 then n else 0)).
Proof.
  intros Hc Hin Hn.
  assert (∃ items', result = (Ok (itemCount items'), write userId items' w)
                    ∧ n = itemCount items') as (items' & -> & ->).
  { apply elem_of_cons in Hin as [->|Hin]; [now apply addItem_ok |].
    apply elem_of_cons in Hin as [->|Hin]; [now apply updateItem_ok |].
    apply list_elem_of_singleton in Hin as ->. now apply removeItem_ok. }
  exists items'. split; [done |]. split; [done |]. intros d Hd later.
  assert (read userId (redis later)
          = if d <? 86400 then Items items' else Null) as Hr.
  { unfold later. simpl redis. now apply read_write_elapse. }
  split; [exact Hr |].
  destruct (d <? 86400).
  - now rewrite (count_items _ _ _ Hr).
  - now rewrite (count_null _ _ Hr).
Qed.

(** Two lamps are added to the cart of the shop; one second before the
    day is over the count is 2, at its end it is 0. *)
Lemma cart_change_lasts_a_day_witness :
  let w' := (addItem "u1" "p1" (Some 2) (shop 10)).2 in
  (count "u1" (with_redis w' (elapse 86399 (redis w')))).1 = Ok (Some 2)
  ∧ (count "u1" (with_redis w' (elapse 86400 (redis w')))).1 = Ok (Some 0).
Proof.
  destruct (cart_change_lasts_a_day "u1" "p1" (Some 2) (shop 10)
              (addItem "u1" "p1" (Some 2) (shop 10)) 2)
    as (items' & _ & _ & H);
    [reflexivity | apply elem_of_cons; now left | vm_compute; reflexivity |].
  split.
  - apply (H 86399). lia.
  - apply (H 86400). lia.
Defined.

(** *** Whose cart a request touches *)







(** *** Without the cache *)

Lemma handle_unreachable userId rq w :
  client (redis w) ≠ Online → handle userId rq w = w.
Proof.
  intros Hc.
  destruct rq as [productId q|productId q|productId|]; cbn [handle].
  - destruct (addItem_world userId productId q w) as [-> | (items & _ & ->)];
      [done | now apply write_unreachable].
  - destruct (updateItem_world userId productId q w)
      as [-> | (items & _ & [-> | (q' & _ & ->)])];
      [done | now apply write_unreachable | now apply write_unreachable].
  - destruct (removeItem_world userId productId w) as [-> | (items & _ & ->)];
      [done | now apply write_unreachable].
  - unfold clearCart, RedisService.deleteCart, del. simpl.
    destruct (client (redis w)); try done; apply with_redis_id.
Qed.

(** X9.  While the cache cannot be reached (no client, or a client whose
    commands fail) no cart is stored or changed by any request; the cart
    and its count read as empty; updating and removing never succeed; and
    yet adding an available product within its stock answers with success
    and an item count of the quantity asked for. *)
Theorem cart_without_cache (userId : string) (w : world) :
  client (redis w) ≠ Online →
  (∀ rq, handle userId rq w = w)
  ∧ Cart.getCart userId w = (Ok (View [] 0%float 0), w)
  ∧ count userId w = (Ok (Some 0), w)
  ∧ (∀ productId q n, (updateItem userId productId q w).1 ≠ Ok n
                      ∧ (removeItem userId productId w).1 ≠ Ok n)
  ∧ ∀ productId q p,
      productId ≠ EmptyString → products w !! productId = Some p →
      Product.isActive p = true → q ≤ Product.stock p →
      addItem userId productId (Some q) w = (Ok q, w).
Proof.
  intros Hc.
  pose proof (read_unreachable userId (redis w) Hc) as Hr.
  split; [intros rq; now apply handle_unreachable |].
  split; [unfold Cart.getCart; now rewrite Hr |].
  split; [now apply count_null |].
  split.
  - intros productId q n. split.
    + unfold updateItem. destruct q as [q|]; [| done].
      destruct (String.eqb productId EmptyString); [done |].
      destruct (q <? 0); [done |].
      destruct (Product.findById _ _) as [p|]; [| done].
      destruct (negb _); [done |]. now rewrite Hr.
    + unfold removeItem. now rewrite Hr.
  - intros productId q p Hne Hp Ha Hq. unfold addItem, Product.findById.
    destruct (String.eqb_spec productId EmptyString); [done |].
    rewrite Hp, Ha, Hr. simpl.
    destruct (Z.ltb_spec (Product.stock p) q); [lia |].
    rewrite write_unreachable by done. unfold itemCount. simpl. done.
Qed.

(** The shop while its cache is down: two lamps are added with success,
    and the cart stays empty. *)
Lemma cart_without_cache_witness :
  let w := with_redis (shop 10) (Make Offline ∅) in
  addItem "u1" "p1" (Some 2) w = (Ok 2, w)
  ∧ count "u1" w = (Ok (Some 0), w).
Proof.
  destruct (cart_without_cache "u1" (with_redis (shop 10) (Make Offline ∅)))
    as (_ & _ & Hcount & _ & Hadd); [discriminate |].
  split; [| exact Hcount].
  apply (Hadd "p1" 2 (Product.Make "Desk lamp" 10%float ["lamp.png"] 10 true));
    [discriminate | vm_compute; reflexivity | reflexivity | simpl; lia].
Defined.

(** *** Removing a line *)

(** X10.  [removeItem] answers [NotFound] exactly when the cart does not
    exist or has no line for the product, and otherwise stores the cart
    without that line.  It does not look at the catalogue: the line of a
    product that has been withdrawn or deleted can be removed, while
    updating its quantity to 0 is refused with [NotFound]. *)
Theorem removeItem_spec (userId productId : string) (w : world) :
  client (redis w) = Online → read userId (redis w) ≠ Malformed →
  ((removeItem userId productId w).1 = Fail NotFound
   ↔ holds_line userId productId w = false)
  ∧ (∀ items,
       read userId (redis w) = Items items → has_line productId items = true →
       let items' := remove_line productId items in
       removeItem userId productId w
       = (Ok (itemCount items'), write userId items' w)
       ∧ read userId (redis (write userId items' w)) = Items items'
       ∧ (NoDup (product <$> items) → has_line productId items' = false)
       ∧ (productId ≠ EmptyString → available productId w = false →
          (updateItem userId productId (Some 0) w).1 = Fail NotFound)).
Proof.
  intros Hc Hr. split.
  - unfold removeItem, holds_line.
    destruct (read userId (redis w)) as [|items|]; [done | | done].
    pose proof (findIndex_update productId 0 items) as Hf.
    destruct (findIndex (same_product productId) items) as [i|].
    + destruct Hf as (-> & _). done.
    + now rewrite Hf.
  - intros items Hi Hh items'. split; [| split; [| split]].
    + unfold removeItem. rewrite Hi.
      pose proof (findIndex_update productId 0 items) as Hf.
      destruct (findIndex (same_product productId) items) as [i|];
        [| congruence].
      destruct Hf as (_ & -> & _). done.
    + now apply read_write.
    + intros Hnd. pose proof (line_quantity_remove_line productId items Hnd) as Hq.
      unfold line_quantity in Hq. unfold has_line. fold items' in Hq.
      destruct (List.find (same_product productId) items') as [l|] eqn:F;
        [done |].
      apply not_true_is_false. intros He. apply existsb_exists in He as (l & Hl & He).
      now apply (List.find_none _ _ F l) in Hl as Hn; congruence.
    + intros Hne Ha.
      apply updateItem_not_found; [done | lia | done | now left].
Qed.

(** The lamp has been withdrawn while it was in the cart: its line cannot
    be set to 0, but it can be removed. *)
Lemma removeItem_spec_witness :
  (updateItem "u1" "p1" (Some 0) withdrawn).1 = Fail NotFound
  ∧ removeItem "u1" "p1" withdrawn = (Ok 0, write "u1" [] withdrawn).
Proof.
  destruct (removeItem_spec "u1" "p1" withdrawn) as [_ H];
    [reflexivity | vm_compute; discriminate |].
  destruct (H [Line "p1" 2]) as (Hrm & _ & _ & Hup);
    [vm_compute; reflexivity | reflexivity |].
  split; [| exact Hrm].
  apply Hup; [discriminate | reflexivity].
Defined.

(** *** The carts a user can reach *)

(** X11.  Whatever requests a user sends to the cart routes, while the
    catalogue changes and time passes, the stored cart is a cart and has
    no two lines for the same product; if every request to add asks for a
    positive quantity, every line has a positive quantity; and the count
    route answers with the sum of the quantities. *)
Theorem reachable_carts (allowed : request → Prop) (userId : string)
  (w : world) :
  reachable allowed userId w →
  ∃ items,
    lines (read userId (redis w)) = Some items
    ∧ NoDup (product <$> items)
    ∧ count userId w = (Ok (Some (itemCount items)), w)
    ∧ ((∀ rq, allowed rq → adds_positive rq) →
       Forall (λ l, 0 < quantity l) items
       ∧ Z.of_nat (length items) ≤ itemCount items).
Proof.
  intros Hw.
  assert (reachable (λ _, True) userId w) as Hany.
  { clear -Hw. induction Hw; [now apply reach_empty | now apply reach_request
                              | now apply reach_catalogue | now apply reach_time]. }
  pose proof (reachable_unique userId w Hany) as Hu.
  assert (∃ items, lines (read userId (redis w)) = Some items
                   ∧ NoDup (product <$> items)) as (items & Hl & Hnd).
  { destruct (read userId (redis w)) as [|items|]; simpl in *;
      [exists []; split; [done | apply NoDup_nil_2] | now exists items | done]. }
  exists items. split; [done |]. split; [done |].
  split; [now apply count_lines |]. intros Hall.
  assert (reachable adds_positive userId w) as Hpos.
  { clear -Hw Hall. induction Hw; [now apply reach_empty | apply reach_request; auto
                                   | now apply reach_catalogue | now apply reach_time]. }
  apply reachable_positive in Hpos.
  assert (Forall (λ l, 0 < quantity l) items) as Hq.
  { destruct (read userId (redis w)) as [|items'|]; simpl in *;
      [injection Hl as <-; constructor | now injection Hl as <- | done]. }
  split; [done |]. clear -Hq.
  induction Hq as [|l items Hl H IH]; [done |].
  rewrite itemCount_cons. simpl length. lia.
Qed.

(** The cart of [u1] after adding two lamps and one more to the shop. *)
Lemma reachable_carts_witness :
  let w := handle "u1" (Add "p1" None)
             (handle "u1" (Add "p1" (Some 2)) (shop 10)) in
  ∃ items, lines (read "u1" (redis w)) = Some items
           ∧ NoDup (product <$> items)
           ∧ Forall (λ l, 0 < quantity l) items.
Proof.
  intros w.
  destruct (reachable_carts adds_positive "u1" w) as (items & Hl & Hnd & _ & H).
  - apply reach_request; [| exact I].
    apply reach_request; [| simpl; lia].
    apply reach_empty. vm_compute. reflexivity.
  - exists items. split; [exact Hl |]. split; [exact Hnd |].
    now apply H.
Defined.

End CartMoreFacts.

(** ** More of the order routes *)

Module OrdersMoreFacts.

Import RedisService Orders OrdersSpec OrdersFacts Examples.

(** *** The stock stays valid *)

Lemma process_stock_valid items : ∀ userId now subtotal lines w,
  map_Forall (λ _ p, 0 ≤ Product.stock p) (products w) →
  map_Forall (λ _ p, 0 ≤ Product.stock p)
    (products (process userId now items subtotal lines w).2).
Proof.
  induction items as [|item items IH]; intros userId now subtotal lines w Hw;
    [done |].
  simpl process. unfold Product.findById.
  destruct (products w !! product item) as [p|] eqn:Hp; [| done].
  destruct (Z.ltb_spec (Product.stock p) (quantity item)); [done |].
  unfold Product.save, Product.valid. simpl.
  destruct (Z.leb_spec 0 (Product.stock p - quantity item)); [| lia].
  apply IH. rewrite products_track. simpl.
  apply map_Forall_insert_2; [simpl; lia | done].
Qed.

(** What the loop has done when it stops: the first [k] lines have been
    taken from the stock; either these are all the lines, or line [k] is
    the one that fails, in the catalogue as the lines before it left it. *)
Lemma process_outcome items : ∀ userId now subtotal lines w,
  ∃ k,
    stock_moved (λ x, - ordered x (take k items)) (products w)
      (products (process userId now items subtotal lines w).2)
    ∧ orders (process userId now items subtotal lines w).2 = orders w
    ∧ redis (process userId now items subtotal lines w).2 = redis w
    ∧ match (process userId now items subtotal lines w).1 with
      | inr _ => k = length items
      | inl e =>
        ∃ item, items !! k = Some item
          ∧ match products (process userId now items subtotal lines w).2
                  !! product item with
            | None => e = NotFound
            | Some p => e = InsufficientStock ∧ Product.stock p < quantity item
            end
      end.
Proof.
  induction items as [|item items IH]; intros userId now subtotal lines w.
  - exists O. simpl. repeat split. apply stock_moved_refl.
  - simpl process. unfold Product.findById.
    destruct (products w !! product item) as [p|] eqn:Hp.
    + destruct (Z.ltb_spec (Product.stock p) (quantity item)).
      * exists O. simpl. repeat split; [apply stock_moved_refl |].
        exists item. rewrite Hp. done.
      * unfold Product.save, Product.valid. simpl.
        destruct (Z.leb_spec 0 (Product.stock p - quantity item)); [| lia].
        match goal with
        | |- context [process userId now items ?s ?l ?w1] =>
          destruct (IH userId now s l w1) as (k & Hm & Ho & Hr & Hk)
        end.
        exists (S k). rewrite Ho, Hr, orders_track, redis_track.
        split; [| split; [done | split; [done |]]];
          [| destruct (process userId now items _ _ _).1 as [e|res];
             [exact Hk | simpl; now rewrite Hk]].
        rewrite products_track in Hm. simpl in Hm.
        replace (Product.stock p - quantity item)
          with (Product.stock p + - quantity item) in Hm by lia.
        apply (stock_moved_step _ _ _ _ _ _ Hp) in Hm.
        eapply stock_moved_ext; [| exact Hm].
        intros x. simpl. destruct (String.eqb (product item) x); lia.
    + exists O. simpl. repeat split; [apply stock_moved_refl |].
      exists item. rewrite Hp. done.
Qed.



Lemma createOrder_failure_kind userId items shippingAddress paymentMethod now
  w e :
  (createOrder userId items shippingAddress paymentMethod now w).1 = Fail e →
  e = BadRequest ∨ e = NotFound ∨ e = InsufficientStock.
Proof.
  unfold createOrder. destruct items as [|item0 items];
    [intros [= <-]; now left |].
  destruct (process _ _ _ _ _ _) as [[e'|[subtotal lines]] w1] eqn:Hp; [| done].
  intros [= <-]. apply process_fails in Hp as [[-> | ->] _]; auto.
Qed.

(** X13.  Placing an order never drives a stock below 0, whatever the
    request asks for and whether or not it is accepted, and the [save] of
    a product never fails: the only failures are [BadRequest], [NotFound]
    and [InsufficientStock]. *)
Theorem createOrder_keeps_stock_valid (userId : string)
  (items : list request_item) (shippingAddress paymentMethod : string)
  (now : Z) (w : world) :
  map_Forall (λ _ p, 0 ≤ Product.stock p) (products w) →
  let result := createOrder userId items shippingAddress paymentMethod now w in
  map_Forall (λ _ p, 0 ≤ Product.stock p) (products result.2)
  ∧ (∀ id, is_Some (products result.2 !! id) ↔ is_Some (products w !! id))
  ∧ ∀ e, result.1 = Fail e → e ∈ [BadRequest; NotFound; InsufficientStock].
Proof.
  intros Hw result.
  assert (map_Forall (λ _ p, 0 ≤ Product.stock p) (products result.2)
          ∧ ∀ id, is_Some (products result.2 !! id)
                  ↔ is_Some (products w !! id)) as [H1 H2].
  { unfold result, createOrder. destruct items as [|item0 items]; [done |].
    pose proof (process_stock_valid (item0 :: items) userId now 0%float [] w Hw)
      as Hv.
    destruct (process_outcome (item0 :: items) userId now 0%float [] w)
      as (k & Hm & _).
    destruct (process _ _ _ _ _ _) as [[e'|[subtotal lines]] w1]; simpl in *.
    - split; [done |]. intros id. rewrite (Hm id), fmap_is_Some. done.
    - split; [done |]. intros id. rewrite (Hm id), fmap_is_Some. done. }
  split; [done |]. split; [done |]. intros e E.
  destruct (createOrder_failure_kind userId items shippingAddress paymentMethod
              now w e E) as [-> | [-> | ->]]; repeat constructor.
Qed.

(** The bazaar after the request for two lamps and four mugs, which is
    refused: no stock is below 0. *)
Lemma createOrder_keeps_stock_valid_witness :
  map_Forall (λ _ p, 0 ≤ Product.stock p)
    (products (createOrder "u1" [RequestItem "p1" 2; RequestItem "p2" 4]
                 "1 Main St" "card" 1700000000 bazaar).2).
Proof.
  apply (createOrder_keeps_stock_valid "u1"
           [RequestItem "p1" 2; RequestItem "p2" 4] "1 Main St" "card"
           1700000000 bazaar).
  apply map_Forall_insert_2; [simpl; lia |].
  apply map_Forall_insert_2; [simpl; lia |]. apply map_Forall_empty.
Defined.

(** *** An order that is placed *)





(** *** Placing an order and taking it back *)




(** *** The graph *)

Lemma track_graph userId productId now w :
  ∃ new,
    Neo4j.edges (graph (track userId productId now w))
    = Neo4j.edges (graph w) ++ new
    ∧ Forall (λ e, e = Neo4j.Edge userId productId "PURCHASED" now) new
    ∧ Neo4j.online (graph (track userId productId now w)) = Neo4j.online (graph w)
    ∧ Neo4j.users (graph (track userId productId now w)) = Neo4j.users (graph w)
    ∧ Neo4j.products (graph (track userId productId now w))
      = Neo4j.products (graph w)
    ∧ (Neo4j.online (graph w) = false ∨ userId ∉ Neo4j.users (graph w) →
       graph (track userId productId now w) = graph w).
Proof.
  unfold track, Neo4j.createUserInteraction.
  destruct (Neo4j.online (graph w)) eqn:Hon.
  - destruct (bool_decide _) eqn:Hd.
    + apply bool_decide_eq_true in Hd as [Hu Hp].
      eexists [_]. simpl. repeat split; [repeat constructor |].
      now intros [|].
    + exists []. simpl. rewrite app_nil_r.
      repeat split; first [done | constructor].
  - exists []. rewrite app_nil_r. repeat split; first [done | constructor].
Qed.

Lemma process_graph items : ∀ userId now subtotal lines w,
  ∃ new,
    Neo4j.edges (graph (process userId now items subtotal lines w).2)
    = Neo4j.edges (graph w) ++ new
    ∧ Forall (λ e, Neo4j.source e = userId ∧ Neo4j.kind e = "PURCHASED"
                   ∧ Neo4j.timestamp e = now
                   ∧ Neo4j.target e ∈ product <$> items) new
    ∧ Neo4j.online (graph (process userId now items subtotal lines w).2)
      = Neo4j.online (graph w)
    ∧ Neo4j.users (graph (process userId now items subtotal lines w).2)
      = Neo4j.users (graph w)
    ∧ Neo4j.products (graph (process userId now items subtotal lines w).2)
      = Neo4j.products (graph w)
    ∧ (Neo4j.online (graph w) = false ∨ userId ∉ Neo4j.users (graph w) →
       graph (process userId now items subtotal lines w).2 = graph w).
Proof.
  induction items as [|item items IH]; intros userId now subtotal lines w.
  - exists []. simpl. rewrite app_nil_r. repeat split. constructor.
  - assert (∃ new : list Neo4j.edge,
              Neo4j.edges (graph w) = Neo4j.edges (graph w) ++ new
              ∧ Forall (λ e, Neo4j.source e = userId
                             ∧ Neo4j.kind e = "PURCHASED"
                             ∧ Neo4j.timestamp e = now
                             ∧ Neo4j.target e ∈ product <$> item :: items) new)
      as (new0 & H0a & H0b) by (exists []; rewrite app_nil_r; now split).
    simpl process. unfold Product.findById.
    destruct (products w !! product item) as [p|] eqn:Hp;
      [| exists new0; simpl; repeat split; done].
    destruct (Product.stock p <? quantity item);
      [exists new0; simpl; repeat split; done |].
    unfold Product.save. destruct (Product.valid _);
      [| exists new0; simpl; repeat split; done].
    match goal with
    | |- context [process userId now items ?s ?l (track _ _ _ ?w1)] =>
      destruct (IH userId now s l (track userId (product item) now w1))
        as (new & He & Hf & Hon & Hu & Hps & Hsame);
      destruct (track_graph userId (product item) now w1)
        as (new1 & He1 & Hf1 & Hon1 & Hu1 & Hps1 & Hsame1)
    end.
    simpl graph in *.
    exists (new1 ++ new). rewrite He, He1, Hon, Hon1, Hu, Hu1, Hps, Hps1.
    split; [now rewrite List.app_assoc |]. split; [| repeat split].
    + apply Forall_app. split.
      * eapply Forall_impl; [exact Hf1 |]. intros e ->. simpl.
        repeat split. apply elem_of_cons. now left.
      * eapply Forall_impl; [exact Hf |]. intros e (? & ? & ? & Hin).
        repeat split; try done. rewrite fmap_cons. apply elem_of_cons.
        now right.
    + intros Hoff. rewrite Hsame; [now apply Hsame1 |].
      now rewrite Hon1, Hu1.
Qed.

Lemma process_ignores_graph items : ∀ userId now subtotal lines w w0,
  products w0 = products w →
  (process userId now items subtotal lines w0).1
  = (process userId now items subtotal lines w).1
  ∧ products (process userId now items subtotal lines w0).2
    = products (process userId now items subtotal lines w).2.
Proof.
  induction items as [|item items IH]; intros userId now subtotal lines w w0 H;
    [done |].
  simpl process. rewrite H. unfold Product.findById.
  destruct (products w !! product item) as [p|]; [| done].
  destruct (Product.stock p <? quantity item); [done |].
  unfold Product.save. destruct (Product.valid _); [| done].
  apply IH. now rewrite !products_track.
Qed.

(** X16.  The graph is written to and never read: with any other graph in
    its place, reachable or not, an order gets the same answer and leaves
    the same catalogue, orders and cache.  What an order does to the graph
    is to append purchases of the user at the time of the order for
    products of the request; it adds or removes no node, and it leaves
    the graph as it is when the graph cannot be reached or does not know
    the user. *)
Theorem createOrder_and_the_graph (userId : string) (items : list request_item)
  (shippingAddress paymentMethod : string) (now : Z) (w : world) (g : Neo4j.t) :
  let result := createOrder userId items shippingAddress paymentMethod now w in
  let result' :=
    createOrder userId items shippingAddress paymentMethod now (with_graph w g) in
  (result'.1 = result.1 ∧ products result'.2 = products result.2
   ∧ orders result'.2 = orders result.2 ∧ redis result'.2 = redis result.2)
  ∧ (∃ new,
       Neo4j.edges (graph result.2) = Neo4j.edges (graph w) ++ new
       ∧ Forall (λ e, Neo4j.source e = userId ∧ Neo4j.kind e = "PURCHASED"
                      ∧ Neo4j.timestamp e = now
                      ∧ Neo4j.target e ∈ product <$> items) new)
  ∧ Neo4j.users (graph result.2) = Neo4j.users (graph w)
  ∧ Neo4j.products (graph result.2) = Neo4j.products (graph w)
  ∧ (Neo4j.online (graph w) = false ∨ userId ∉ Neo4j.users (graph w) →
     graph result.2 = graph w).
Proof.
  intros result result'. unfold result, result', createOrder.
  destruct items as [|item0 items].
  { simpl. repeat split. exists []. rewrite app_nil_r. split; [done | constructor]. }
  destruct (process_ignores_graph (item0 :: items) userId now 0%float [] w
              (with_graph w g) eq_refl) as [H1 H2].
  destruct (process_outcome (item0 :: items) userId now 0%float [] w)
    as (_ & _ & Ho & Hr & _).
  destruct (process_outcome (item0 :: items) userId now 0%float []
              (with_graph w g)) as (_ & _ & Ho' & Hr' & _).
  destruct (process_graph (item0 :: items) userId now 0%float [] w)
    as (new & He & Hf & _ & Hu & Hps & Hsame).
  destruct (process userId now (item0 :: items) 0%float [] w)
    as [[e|[subtotal lines]] w1];
    destruct (process userId now (item0 :: items) 0%float [] (with_graph w g))
      as [[e'|[subtotal' lines']] w1']; simpl in *; try done.
  - injection H1 as ->. repeat split; try done; [congruence .. | now exists new].
  - injection H1 as -> ->. rewrite Ho, Ho', Hr, Hr', H2.
    repeat split; try done. now exists new.
Qed.

(** *** Cancelling *)



End OrdersMoreFacts.
